(** * go-metrics-datadog: the Datadog reporter of [datadog.go]

    A shallow embedding of the reporter ([Reporter], the [With...] options,
    [New], [Flush], [submit]) and the properties of its snapshot-to-wire
    translation: counter deltas, per-kind sample sequences, the percentile
    label cache, the return value of a flush and what a flush leaves alone.

    Go's [int64] is a [Z] with the wrap-around written out, [float64] is
    Rocq's primitive binary64 [float], a Go [string] is a [string] (a list
    of bytes), the map [ss] is a [gmap string Z].  The reporter is mutated
    in place through a pointer, so the code runs in a state monad over
    [Reporter] in which a Go panic is an outcome of its own.

    The collaborators of the reporter are modelled by what the reporter
    uses of them: a go-metrics registry by the entries [Each] hands out, a
    snapshot by the answers of its methods, the statsd client by the calls
    it receives and the errors its transport answers, [time.Duration] and
    [fmt.Sprintf] by the Go standard library's definitions.
    [FlushWithInterval], the endless loop around [submit], is left out. *)

From Stdlib Require Import ZArith Floats.
From stdpp Require Import base option list gmap strings pretty.

Set Warnings "-inexact-float".

Local Open Scope Z_scope.

(** ** Machine integers *)

Module Int64.

Definition min_int : Z := - 2 ^ 63.
Definition max_int : Z := 2 ^ 63 - 1.

Definition in_range (z : Z) : Prop := min_int <= z <= max_int.

(** Two's complement wrap-around of a mathematical integer. *)
Definition wrap (z : Z) : Z := (z + 2 ^ 63) mod 2 ^ 64 - 2 ^ 63.

(** Go's [a - b] on [int64]. *)
Definition sub (a b : Z) : Z := wrap (a - b).

End Int64.

(** ** float64 *)

Module Float64.

(** Go's conversion [float64(z)] of an [int64]: round to nearest even. *)
Definition of_int64 (z : Z) : float :=
  SF2Prim (binary_normalize prec emax z 0 false).

(** Go's conversion [int64(f)]: the fraction is discarded (truncation
    towards zero).  The Go specification leaves the result open when the
    value does not fit; amd64 yields the smallest [int64], which is what
    this definition returns there. *)
Definition to_int64 (f : float) : Z :=
  match Prim2SF f with
  | S754_zero _ => 0
  | S754_finite s m e =>
      let mag := Z.shiftl (Z.pos m) e in
      let z := if s then - mag else mag in
      if bool_decide (Int64.min_int <= z <= Int64.max_int) then z
      else Int64.min_int
  | S754_infinity _ | S754_nan => Int64.min_int
  end.

(** Nearest integer to [n / d], ties to even, for [0 <= n] and [0 < d]. *)
Definition div_round_even (n d : Z) : Z :=
  let q := n / d in
  let r := n mod d in
  if 2 * r <? d then q
  else if d <? 2 * r then q + 1
  else if Z.even q then q else q + 1.

(** [m * 2^e * 10^digits] rounded to the nearest integer, ties to even. *)
Definition scale10 (digits : nat) (m : positive) (e : Z) : Z :=
  if 0 <=? e then Z.pos m * 2 ^ e * 10 ^ Z.of_nat digits
  else div_round_even (Z.pos m * 10 ^ Z.of_nat digits) (2 ^ (- e)).

(** The decimal digits of [n], left-padded with zeros to [digits] places. *)
Definition frac_digits (digits : nat) (n : Z) : string :=
  let s := pretty n in
  String.concat "" (replicate (digits - String.length s)%nat "0") +:+ s.

(** [strconv.FormatFloat(f, 'f', digits, 64)], the [%.<digits>f] verb of
    [fmt.Sprintf]: the exact binary value, correctly rounded to [digits]
    decimals (ties to even). *)
Definition format_f (digits : nat) (f : float) : string :=
  let fixed (neg : bool) (n : Z) :=
    (if neg then "-" else "") +:+ pretty (n / 10 ^ Z.of_nat digits) +:+
    (if bool_decide (digits = 0%nat) then ""
     else "." +:+ frac_digits digits (n mod 10 ^ Z.of_nat digits)) in
  match Prim2SF f with
  | S754_nan => "NaN"
  | S754_infinity false => "+Inf"
  | S754_infinity true => "-Inf"
  | S754_zero s => fixed s 0
  | S754_finite s m e => fixed s (scale10 digits m e)
  end.

End Float64.

(** ** time.Duration *)

Module Duration.

(** A [time.Duration] is an [int64] count of nanoseconds. *)
Definition Second : Z := 1000000000.

(** [func (d Duration) Seconds() float64]: whole seconds plus the
    remaining nanoseconds over [1e9]; Go's [/] and [%] truncate. *)
Definition Seconds (d : Z) : float :=
  let sec := Z.quot d Second in
  let nsec := Z.rem d Second in
  (Float64.of_int64 sec + Float64.of_int64 nsec / 1e9)%float.

End Duration.

(** ** The go-metrics collaborators

    A registry hands the callback of [Each] a name and a metric; the type
    switch of [submit] reads the metric through the methods below.  A
    snapshot is the record of what those methods return at flush time;
    [Percentiles] is a method taking the requested fractions. *)

Module HistogramSnapshot.
Record t := Build {
  Count : Z;
  Max : Z;
  Min : Z;
  Mean : float;
  StdDev : float;
  Variance : float;
  Percentiles : list float → list float
}.
End HistogramSnapshot.

Module MeterSnapshot.
Record t := Build {
  Count : Z;
  Rate1 : float;
  Rate5 : float;
  Rate15 : float;
  RateMean : float
}.
End MeterSnapshot.

Module TimerSnapshot.
Record t := Build {
  Count : Z;
  Max : Z;
  Min : Z;
  Mean : float;
  StdDev : float;
  Percentiles : list float → list float
}.
End TimerSnapshot.

(** The kinds a registry accepts.  [Healthcheck] can be registered as well
    and matches no case of the type switch. *)
Inductive Metric :=
  | Counter (count : Z)
  | Gauge (value : Z)
  | GaugeFloat64 (value : float)
  | Histogram (snapshot : HistogramSnapshot.t)
  | Meter (snapshot : MeterSnapshot.t)
  | Timer (snapshot : TimerSnapshot.t)
  | Healthcheck.

(** The sequence of entries [Each] passes to its callback. *)
Definition Registry := list (string * Metric).

(** A [metrics.Registry] value is a reference to a registry that lives
    outside the reporter and changes between flushes.  The references are
    the ones that are not nil: on a nil registry, which [WithRegistry] and
    [New] accept as any other, [r.registry.Each] panics before a metric is
    visited, and such a reporter is outside this model. *)
Inductive RegistryRef :=
  | DefaultRegistry
  | RegistryAt (id : nat).

Definition Store := RegistryRef → Registry.

(** ** The statsd wire client *)

Definition error := string.

Module statsd.

(** One call of [Count] or [Gauge]: a count-type or a gauge-type sample. *)
Inductive Sample :=
  | CountSample (name : string) (value : Z) (tags : list string) (rate : float)
  | GaugeSample (name : string) (value : float) (tags : list string) (rate : float).

(** The client as the reporter sees it: its namespace, the samples handed
    to it so far (in call order), and what the transport will answer to
    the coming writes ([faults], [None] or exhausted meaning success). *)
Record Client := Build {
  Namespace : string;
  faults : list (option error);
  sent : list Sample
}.

Definition send (c : Client) (s : Sample) : option error * Client :=
  (mjoin (head (faults c)),
   {| Namespace := Namespace c; faults := tail (faults c); sent := sent c ++ [s] |}).

Definition Count (c : Client) (name : string) (value : Z)
    (tags : list string) (rate : float) : option error * Client :=
  send c (CountSample name value tags rate).

Definition Gauge (c : Client) (name : string) (value : float)
    (tags : list string) (rate : float) : option error * Client :=
  send c (GaugeSample name value tags rate).

Definition ErrNoClient : error := "statsd client is nil".

Definition set_Namespace (v : string) (c : Client) : Client :=
  {| Namespace := v; faults := faults c; sent := sent c |}.

(** [statsd.New] and [statsd.NewBuffered]: they may fail to set up the
    transport. *)
Record Dialer := {
  New : string → Client + error;
  NewBuffered : string → Z → Client + error
}.

End statsd.

(** ** The reporter *)

Record Reporter := {
  addr : string;
  prefix : string;
  registry : RegistryRef;
  cn : option statsd.Client;
  tags : list string;
  percentiles : list float;
  p : list string;
  ss : gmap string Z
}.

Definition set_addr (v : string) (r : Reporter) : Reporter :=
  {| addr := v; prefix := prefix r; registry := registry r; cn := cn r;
     tags := tags r; percentiles := percentiles r; p := p r; ss := ss r |}.
Definition set_prefix (v : string) (r : Reporter) : Reporter :=
  {| addr := addr r; prefix := v; registry := registry r; cn := cn r;
     tags := tags r; percentiles := percentiles r; p := p r; ss := ss r |}.
Definition set_registry (v : RegistryRef) (r : Reporter) : Reporter :=
  {| addr := addr r; prefix := prefix r; registry := v; cn := cn r;
     tags := tags r; percentiles := percentiles r; p := p r; ss := ss r |}.
Definition set_cn (v : option statsd.Client) (r : Reporter) : Reporter :=
  {| addr := addr r; prefix := prefix r; registry := registry r; cn := v;
     tags := tags r; percentiles := percentiles r; p := p r; ss := ss r |}.
Definition set_percentiles (v : list float) (r : Reporter) : Reporter :=
  {| addr := addr r; prefix := prefix r; registry := registry r; cn := cn r;
     tags := tags r; percentiles := v; p := p r; ss := ss r |}.
Definition set_p (v : list string) (r : Reporter) : Reporter :=
  {| addr := addr r; prefix := prefix r; registry := registry r; cn := cn r;
     tags := tags r; percentiles := percentiles r; p := v; ss := ss r |}.
Definition set_ss (v : gmap string Z) (r : Reporter) : Reporter :=
  {| addr := addr r; prefix := prefix r; registry := registry r; cn := cn r;
     tags := tags r; percentiles := percentiles r; p := p r; ss := v |}.

(** ** Code that mutates the reporter

    [Go A] is a piece of Go code with a [*Reporter] in scope: it reads and
    updates the reporter and either returns an [A] or panics.  What was
    done before a panic stays done. *)

Inductive outcome (A : Type) :=
  | Returned (a : A)
  | Panicked (msg : string).
Arguments Returned {A} a.
Arguments Panicked {A} msg.

Definition Go (A : Type) : Type := Reporter → outcome A * Reporter.

Definition ret {A} (a : A) : Go A := λ r, (Returned a, r).

Definition bind {A B} (m : Go A) (k : A → Go B) : Go B :=
  λ r, match m r with
       | (Returned a, r') => k a r'
       | (Panicked msg, r') => (Panicked msg, r')
       end.

Definition panic {A} (msg : string) : Go A := λ r, (Panicked msg, r).
Definition get : Go Reporter := λ r, (Returned r, r).
Definition modify (f : Reporter → Reporter) : Go unit := λ r, (Returned tt, f r).

Declare Scope go_scope.
Delimit Scope go_scope with go.
Notation "x <- m ;; k" := (bind m (λ x, k))
  (at level 100, m at next level, right associativity) : go_scope.
Notation "m ;; k" := (bind m (λ _, k))
  (at level 100, right associativity) : go_scope.
Local Open Scope go_scope.

(** [for i, x := range l { body }] *)
Fixpoint for_range_from {A} (i : nat) (l : list A) (body : nat → A → Go unit) : Go unit :=
  match l with
  | [] => ret tt
  | x :: l' => body i x ;; for_range_from (S i) l' body
  end.
Definition for_range {A} (l : list A) (body : nat → A → Go unit) : Go unit :=
  for_range_from 0 l body.

(** [values[i]], which panics out of range. *)
Definition index {A} (values : list A) (i : nat) : Go A :=
  match values !! i with
  | Some v => ret v
  | None => panic "index out of range"
  end.

(** [r.cn.Count(name, value, r.tags, 1)] and [r.cn.Gauge(name, value,
    r.tags, 1)].  On a nil client the methods send nothing and report
    [ErrNoClient]. *)
Definition cn_Count (name : string) (value : Z) : Go (option error) :=
  λ r, match cn r with
       | Some c =>
           let '(err, c') := statsd.Count c name value (tags r) 1%float in
           (Returned err, set_cn (Some c') r)
       | None => (Returned (Some statsd.ErrNoClient), r)
       end.

Definition cn_Gauge (name : string) (value : float) : Go (option error) :=
  λ r, match cn r with
       | Some c =>
           let '(err, c') := statsd.Gauge c name value (tags r) 1%float in
           (Returned err, set_cn (Some c') r)
       | None => (Returned (Some statsd.ErrNoClient), r)
       end.

(** [registry.Each(f)] over the entries the registry holds. *)
Definition Each (reg : Registry) (f : string → Metric → Go unit) : Go unit :=
  for_range reg (λ _ entry, f entry.1 entry.2).

(** ** submit and Flush *)

(** [time.Duration(x).Seconds()*1000] for an [int64] and for a [float64]. *)
Definition millis_of_int64 (ns : Z) : float :=
  (Duration.Seconds ns * 1000)%float.
Definition millis_of_float64 (ns : float) : float :=
  (Duration.Seconds (Float64.to_int64 ns) * 1000)%float.

(** The callback [submit] hands to [Each]: the type switch. *)
Definition submit_metric (name : string) (i : Metric) : Go unit :=
  match i with
  | Counter v =>
      r <- get ;;
      let l := default 0 (ss r !! name) in
      cn_Count name (Int64.sub v l) ;;
      modify (λ r, set_ss (<[name := v]> (ss r)) r)
  | Gauge value =>
      cn_Gauge name (Float64.of_int64 value) ;; ret tt
  | GaugeFloat64 value =>
      cn_Gauge name value ;; ret tt
  | Histogram ms =>
      cn_Gauge (name +:+ ".count") (Float64.of_int64 (HistogramSnapshot.Count ms)) ;;
      cn_Gauge (name +:+ ".max") (Float64.of_int64 (HistogramSnapshot.Max ms)) ;;
      cn_Gauge (name +:+ ".min") (Float64.of_int64 (HistogramSnapshot.Min ms)) ;;
      cn_Gauge (name +:+ ".mean") (HistogramSnapshot.Mean ms) ;;
      cn_Gauge (name +:+ ".stddev") (HistogramSnapshot.StdDev ms) ;;
      cn_Gauge (name +:+ ".var") (HistogramSnapshot.Variance ms) ;;
      r <- get ;;
      if bool_decide (0 < length (percentiles r))%nat then
        let values := HistogramSnapshot.Percentiles ms (percentiles r) in
        for_range (p r) (λ i lbl,
          v <- index values i ;;
          cn_Gauge (name +:+ lbl) v ;; ret tt)
      else ret tt
  | Meter ms =>
      cn_Gauge (name +:+ ".count") (Float64.of_int64 (MeterSnapshot.Count ms)) ;;
      cn_Gauge (name +:+ ".rate1") (MeterSnapshot.Rate1 ms) ;;
      cn_Gauge (name +:+ ".rate5") (MeterSnapshot.Rate5 ms) ;;
      cn_Gauge (name +:+ ".rate15") (MeterSnapshot.Rate15 ms) ;;
      cn_Gauge (name +:+ ".mean") (MeterSnapshot.RateMean ms) ;; ret tt
  | Timer ms =>
      cn_Gauge (name +:+ ".count") (Float64.of_int64 (TimerSnapshot.Count ms)) ;;
      cn_Gauge (name +:+ ".max") (millis_of_int64 (TimerSnapshot.Max ms)) ;;
      cn_Gauge (name +:+ ".min") (millis_of_int64 (TimerSnapshot.Min ms)) ;;
      cn_Gauge (name +:+ ".mean") (millis_of_float64 (TimerSnapshot.Mean ms)) ;;
      cn_Gauge (name +:+ ".stddev") (millis_of_float64 (TimerSnapshot.StdDev ms)) ;;
      r <- get ;;
      if bool_decide (0 < length (percentiles r))%nat then
        let values := TimerSnapshot.Percentiles ms (percentiles r) in
        for_range (p r) (λ i lbl,
          v <- index values i ;;
          cn_Gauge (name +:+ lbl) (millis_of_float64 v) ;; ret tt)
      else ret tt
  | Healthcheck => ret tt
  end.

Definition submit (σ : Store) : Go (option error) :=
  r <- get ;;
  Each (σ (registry r)) submit_metric ;;
  ret None.

Definition Flush (σ : Store) : Go (option error) := submit σ.

(** [FlushWithInterval]: [for range time.Tick(i) { r.submit() }].  The
    loop has no exit of its own; [ticks] holds the registries as they stand
    at the ticks delivered so far, and each tick is one [submit] whose
    result is dropped. *)
Definition FlushWithInterval (ticks : list Store) : Go unit :=
  for_range ticks (λ _ σ, submit σ ;; ret tt).

(** ** Options and New *)

(** [strings.HasSuffix]. *)
Definition HasSuffix (s suffix : string) : bool :=
  bool_decide (String.length suffix ≤ String.length s)%nat &&
  String.eqb
    (String.substring (String.length s - String.length suffix) (String.length suffix) s)
    suffix.

(** A [configFn] is a [func(r *Reporter)]. *)
Definition configFn := Go unit.

Definition WithAddress (v : string) : configFn :=
  modify (set_addr v).

Definition WithPrefix (v : string) : configFn :=
  let v := if negb (HasSuffix v ".") then v +:+ "." else v in
  modify (set_prefix v).

Definition WithRegistry (v : RegistryRef) : configFn :=
  modify (set_registry v).

Definition WithPercentiles (v : list float) : configFn :=
  modify (set_percentiles v).

Definition WithClient (v : option statsd.Client) : configFn :=
  modify (set_cn v).

(** The options a caller outside the package can build. *)
Inductive exported : configFn → Prop :=
  | exported_WithAddress v : exported (WithAddress v)
  | exported_WithPrefix v : exported (WithPrefix v)
  | exported_WithRegistry v : exported (WithRegistry v)
  | exported_WithPercentiles v : exported (WithPercentiles v)
  | exported_WithClient v : exported (WithClient v).

(** [fmt.Sprintf(".pct-%.2f", x)] *)
Definition Sprintf_pct (x : float) : string :=
  ".pct-" +:+ Float64.format_f 2 x.

(** [r.p[i] = v], which panics out of range. *)
Definition store_p (i : nat) (v : string) : Go unit :=
  r <- get ;;
  if bool_decide (i < length (p r))%nat
  then modify (set_p (<[i := v]> (p r)))
  else panic "index out of range".

(** The reporter [New] starts from. *)
Definition defaults : Reporter :=
  {| addr := "127.0.0.1:8125";
     prefix := "";
     registry := DefaultRegistry;
     cn := None;
     tags := [];
     percentiles := [0.50; 0.75; 0.95; 0.99; 0.999]%float;
     p := [];
     ss := ∅ |}.

(** The body of [New], run on the reporter it allocates; its result is the
    [err] that [New] returns. *)
Definition New_body (dial : statsd.Dialer) (FlushLength : Z)
    (options : list configFn) : Go (option error) :=
  for_range options (λ _ opt, opt) ;;
  r <- get ;;
  (if bool_decide (0 < length (percentiles r))%nat then
     modify (set_p (replicate (length (percentiles r)) "")) ;;
     for_range (percentiles r) (λ i pc, store_p i (Sprintf_pct (pc * 100.0)))
   else ret tt) ;;
  r <- get ;;
  err <- (match cn r with
          | None =>
              match (if bool_decide (1 < FlushLength)
                     then statsd.NewBuffered dial (addr r) FlushLength
                     else statsd.New dial (addr r)) with
              | inl c => modify (set_cn (Some c)) ;; ret None
              | inr e => modify (set_cn None) ;; ret (Some e)
              end
          | Some _ => ret None
          end) ;;
  match err with
  | Some e => ret (Some e)
  | None =>
      r <- get ;;
      match cn r with
      | Some c => modify (set_cn (Some (statsd.set_Namespace (prefix r) c))) ;; ret None
      | None => panic "nil pointer dereference"
      end
  end.

(** [New(options...)]: the reporter, or the error of the dialer. *)
Definition New (dial : statsd.Dialer) (FlushLength : Z)
    (options : list configFn) : outcome (Reporter + error) :=
  match New_body dial FlushLength options defaults with
  | (Returned None, r) => Returned (inl r)
  | (Returned (Some e), _) => Returned (inr e)
  | (Panicked msg, _) => Panicked msg
  end.

(** ** Test fixtures, after [datadog_test.go] *)

Module Fixtures.

(** A transport on which every write succeeds, and one on which the first
    [n] writes fail. *)
Definition client : statsd.Client :=
  {| statsd.Namespace := ""; statsd.faults := []; statsd.sent := [] |}.
Definition flaky (n : nat) : statsd.Client :=
  {| statsd.Namespace := "";
     statsd.faults := replicate n (Some "write: connection refused");
     statsd.sent := [] |}.

Definition dial : statsd.Dialer :=
  {| statsd.New := λ _, inl client; statsd.NewBuffered := λ _ _, inl client |}.
Definition dial_flaky : statsd.Dialer :=
  {| statsd.New := λ _, inl (flaky 64); statsd.NewBuffered := λ _ _, inl (flaky 64) |}.
Definition dial_down : statsd.Dialer :=
  {| statsd.New := λ _, inr "dial udp: lookup failed";
     statsd.NewBuffered := λ _ _, inr "dial udp: lookup failed" |}.

Definition reg := RegistryAt 0.
Definition store (entries : Registry) : Store :=
  λ ref, match ref with RegistryAt 0 => entries | _ => [] end.

(** The histogram of [TestReporter_FlushHistogram]: updates 11 and 1. *)
Definition histogram : HistogramSnapshot.t :=
  {| HistogramSnapshot.Count := 2;
     HistogramSnapshot.Max := 11;
     HistogramSnapshot.Min := 1;
     HistogramSnapshot.Mean := 6;
     HistogramSnapshot.StdDev := 5;
     HistogramSnapshot.Variance := 25;
     HistogramSnapshot.Percentiles :=
       fmap (λ q, if (q <=? 0.5)%float then 6%float else 11%float) |}.

(** The timer of [TestReporter_FlushTimer]: nine updates of 1ms, one of
    10ms. *)
Definition timer : TimerSnapshot.t :=
  {| TimerSnapshot.Count := 10;
     TimerSnapshot.Max := 10000000;
     TimerSnapshot.Min := 1000000;
     TimerSnapshot.Mean := 1900000;
     TimerSnapshot.StdDev := 2700000;
     TimerSnapshot.Percentiles :=
       fmap (λ q, if (q <=? 0.75)%float then 1000000%float else 10000000%float) |}.

Definition meter : MeterSnapshot.t :=
  {| MeterSnapshot.Count := 10;
     MeterSnapshot.Rate1 := 0;
     MeterSnapshot.Rate5 := 0;
     MeterSnapshot.Rate15 := 0;
     MeterSnapshot.RateMean := 812.5 |}.

(** [New(WithRegistry(r))] on a working transport. *)
Definition reporter : Reporter :=
  match New dial 1 [WithRegistry reg] with
  | Returned (inl r) => r
  | _ => defaults
  end.

(** The same on a transport that refuses the first 64 writes, which is
    every write of the flushes below. *)
Definition reporter_flaky : Reporter :=
  match New dial_flaky 1 [WithRegistry reg] with
  | Returned (inl r) => r
  | _ => defaults
  end.

(** One metric of every kind. *)
Definition all_kinds : Registry :=
  [("c", Counter 7); ("g", Gauge 100); ("f", GaugeFloat64 55.55);
   ("h", Histogram histogram); ("m", Meter meter); ("t", Timer timer);
   ("ok", Healthcheck)].

End Fixtures.

(** * The vocabulary of the properties *)

(** ** What a run hands to the wire client *)

(** The samples handed to the client so far. *)
Definition samples_sent (r : Reporter) : list statsd.Sample :=
  from_option statsd.sent [] (cn r).

(** The answer of the transport to the next write. *)
Definition next_err (r : Reporter) : option error :=
  match cn r with
  | Some c => mjoin (head (statsd.faults c))
  | None => Some statsd.ErrNoClient
  end.

(** The reporter after one sample, and after a list of them, went to the
    client. *)
Definition hand (s : statsd.Sample) (r : Reporter) : Reporter :=
  set_cn ((λ c, (statsd.send c s).2) <$> cn r) r.

Definition hand_all (l : list statsd.Sample) (r : Reporter) : Reporter :=
  foldl (λ r s, hand s r) r l.

(** ** The emission table

    The table of the specification (its section on the submit engine), as a
    function of the reporter at the moment the metric is visited: the
    samples a metric gives rise to, and the baseline table afterwards.  The
    callback [submit_metric] is compared with it below. *)

(** A gauge-type and a count-type sample with the reporter's tags and the
    rate 1. *)
Definition gauge (r : Reporter) (name : string) (v : float) : statsd.Sample :=
  statsd.GaugeSample name v (tags r) 1.

Definition count (r : Reporter) (name : string) (v : Z) : statsd.Sample :=
  statsd.CountSample name v (tags r) 1.

(** One gauge per label of the cache, valued by [values] in order, unless
    no percentile is configured. *)
Definition percentile_samples (r : Reporter) (name : string)
    (conv : float → float) (values : list float) : list statsd.Sample :=
  if bool_decide (0 < length (percentiles r))%nat
  then zip_with (λ lbl v, gauge r (name +:+ lbl) (conv v)) (p r) values
  else [].

(** The row of the table for each kind of metric. *)
Definition expected_samples (r : Reporter) (name : string) (i : Metric)
    : list statsd.Sample :=
  match i with
  | Counter v => [count r name (Int64.sub v (default 0 (ss r !! name)))]
  | Gauge v => [gauge r name (Float64.of_int64 v)]
  | GaugeFloat64 v => [gauge r name v]
  | Histogram ms =>
      [gauge r (name +:+ ".count") (Float64.of_int64 (HistogramSnapshot.Count ms));
       gauge r (name +:+ ".max") (Float64.of_int64 (HistogramSnapshot.Max ms));
       gauge r (name +:+ ".min") (Float64.of_int64 (HistogramSnapshot.Min ms));
       gauge r (name +:+ ".mean") (HistogramSnapshot.Mean ms);
       gauge r (name +:+ ".stddev") (HistogramSnapshot.StdDev ms);
       gauge r (name +:+ ".var") (HistogramSnapshot.Variance ms)]
      ++ percentile_samples r name id
           (HistogramSnapshot.Percentiles ms (percentiles r))
  | Meter ms =>
      [gauge r (name +:+ ".count") (Float64.of_int64 (MeterSnapshot.Count ms));
       gauge r (name +:+ ".rate1") (MeterSnapshot.Rate1 ms);
       gauge r (name +:+ ".rate5") (MeterSnapshot.Rate5 ms);
       gauge r (name +:+ ".rate15") (MeterSnapshot.Rate15 ms);
       gauge r (name +:+ ".mean") (MeterSnapshot.RateMean ms)]
  | Timer ms =>
      [gauge r (name +:+ ".count") (Float64.of_int64 (TimerSnapshot.Count ms));
       gauge r (name +:+ ".max") (millis_of_int64 (TimerSnapshot.Max ms));
       gauge r (name +:+ ".min") (millis_of_int64 (TimerSnapshot.Min ms));
       gauge r (name +:+ ".mean") (millis_of_float64 (TimerSnapshot.Mean ms));
       gauge r (name +:+ ".stddev") (millis_of_float64 (TimerSnapshot.StdDev ms))]
      ++ percentile_samples r name millis_of_float64
           (TimerSnapshot.Percentiles ms (percentiles r))
  | Healthcheck => []
  end.

(** The baseline table after a metric was visited. *)
Definition baseline_after (m : gmap string Z) (name : string) (i : Metric)
    : gmap string Z :=
  match i with
  | Counter v => <[name := v]> m
  | _ => m
  end.

(** The reporter after the metric [i] registered as [name] was visited,
    and after a whole registry was. *)
Definition visit (name : string) (i : Metric) (r : Reporter) : Reporter :=
  hand_all (expected_samples r name i) (set_ss (baseline_after (ss r) name i) r).

Definition visit_all (reg : Registry) (r : Reporter) : Reporter :=
  foldl (λ r e, visit e.1 e.2 r) r reg.

(** ** When the percentile loops stay in bounds *)

(** The percentile loop stays within the values it indexes. *)
Definition in_bounds (r : Reporter) (i : Metric) : Prop :=
  match i with
  | Histogram ms =>
      (0 < length (percentiles r))%nat →
      (length (p r) ≤ length (HistogramSnapshot.Percentiles ms (percentiles r)))%nat
  | Timer ms =>
      (0 < length (percentiles r))%nat →
      (length (p r) ≤ length (TimerSnapshot.Percentiles ms (percentiles r)))%nat
  | _ => True
  end.

(** A snapshot answers [Percentiles] with one value per requested fraction,
    as every go-metrics implementation does. *)
Definition answers_in_full (i : Metric) : Prop :=
  match i with
  | Histogram ms => ∀ qs, length (HistogramSnapshot.Percentiles ms qs) = length qs
  | Timer ms => ∀ qs, length (TimerSnapshot.Percentiles ms qs) = length qs
  | _ => True
  end.

(** The label cache has one label per configured percentile. *)
Definition labels_match (r : Reporter) : Prop :=
  length (p r) = length (percentiles r).

(** ** What a run leaves alone *)

(** The baseline table after a whole registry was visited. *)
Definition baselines (reg : Registry) (m : gmap string Z) : gmap string Z :=
  foldl (λ m e, baseline_after m e.1 e.2) m reg.

(** [r'] differs from [r] at most in the state of the client behind [cn]
    and in the baselines of the names in [names]. *)
Definition untouched (names : string → Prop) (r r' : Reporter) : Prop :=
  addr r' = addr r ∧ prefix r' = prefix r ∧ registry r' = registry r ∧
  tags r' = tags r ∧ percentiles r' = percentiles r ∧ p r' = p r ∧
  statsd.Namespace <$> cn r' = statsd.Namespace <$> cn r ∧
  ∀ n, ¬ names n → ss r' !! n = ss r !! n.

(** A piece of code that, from every reporter, leaves all of that alone. *)
Definition frames {A} (names : string → Prop) (m : Go A) : Prop :=
  ∀ r, untouched names r (m r).2.

(** ** Reading a list of samples *)

(** The count-type samples of a name; the gauge-type samples. *)
Definition is_count_of (name : string) (s : statsd.Sample) : bool :=
  match s with
  | statsd.CountSample n _ _ _ => bool_decide (n = name)
  | statsd.GaugeSample _ _ _ _ => false
  end.

Definition is_gauge (s : statsd.Sample) : bool :=
  match s with
  | statsd.CountSample _ _ _ _ => false
  | statsd.GaugeSample _ _ _ _ => true
  end.

(** A count-type sample with its value replaced by 0. *)
Definition zero_count (s : statsd.Sample) : statsd.Sample :=
  match s with
  | statsd.CountSample n _ t rate => statsd.CountSample n 0 t rate
  | statsd.GaugeSample _ _ _ _ => s
  end.

Definition is_counter (i : Metric) : Prop := ∃ v, i = Counter v.

(** ** Conversions and labels *)

(** The conversion as the specification words it: the nanosecond value
    divided by [1e6]. *)
Definition nanos_div_1e6 (ns : float) : float := (ns / 1e6)%float.

(** The label of a percentile: [fmt.Sprintf(".pct-%.2f", q*100.0)]. *)
Definition label_of (q : float) : string := Sprintf_pct (q * 100.0).

(** What [New] establishes: a label per percentile, made by [label_of],
    and a live client. *)
Definition constructed (r : Reporter) : Prop :=
  p r = label_of <$> percentiles r ∧ is_Some (cn r).

(** ** Further vocabulary *)

(** The parts of a sample. *)
Definition sample_tags (s : statsd.Sample) : list string :=
  match s with
  | statsd.CountSample _ _ t _ | statsd.GaugeSample _ _ t _ => t
  end.

Definition sample_rate (s : statsd.Sample) : float :=
  match s with
  | statsd.CountSample _ _ _ rate | statsd.GaugeSample _ _ _ rate => rate
  end.

(** The values of the count-type samples of a name, in order. *)
Definition count_values (name : string) (out : list statsd.Sample) : list Z :=
  (λ s, match s with
        | statsd.CountSample _ v _ _ => v
        | statsd.GaugeSample _ _ _ _ => 0
        end) <$> filter (λ s, is_count_of name s) out.

(** How many samples a metric of each kind gives rise to when [n]
    percentiles are configured. *)
Definition samples_of_kind (n : nat) (i : Metric) : nat :=
  match i with
  | Counter _ | Gauge _ | GaugeFloat64 _ => 1
  | Histogram _ => 6 + n
  | Meter _ => 5
  | Timer _ => 5 + n
  | Healthcheck => 0
  end.

Definition is_healthcheck (i : Metric) : bool :=
  match i with
  | Healthcheck => true
  | _ => false
  end.

(** The names under which a registry holds counters. *)
Definition counter_names (reg : Registry) : list string :=
  omap (λ e, match e.2 with Counter _ => Some e.1 | _ => None end) reg.

(** The reporter with the coming answers of its transport replaced. *)
Definition with_faults (fs : list (option error)) (r : Reporter) : Reporter :=
  set_cn ((λ c, {| statsd.Namespace := statsd.Namespace c;
                   statsd.faults := fs;
                   statsd.sent := statsd.sent c |}) <$> cn r) r.

(** The defaults with the options applied in order. *)
Definition configured (options : list configFn) : Reporter :=
  foldl (λ r opt, (opt r).2) defaults options.

(** The client [New] ends up with when no client was injected. *)
Definition dialed (dial : statsd.Dialer) (FlushLength : Z) (a : string)
    : statsd.Client + error :=
  if bool_decide (1 < FlushLength)
  then statsd.NewBuffered dial a FlushLength
  else statsd.New dial a.

(** * Properties *)

(** ** What a run hands to the wire client *)

Section Run.

Context {A B : Type}.

Lemma bind_ret (a : A) (k : A → Go B) r : bind (ret a) k r = k a r.
Proof. reflexivity. Qed.

Lemma bind_get (k : Reporter → Go B) r : bind get k r = k r r.
Proof. reflexivity. Qed.

Lemma bind_modify f (k : unit → Go B) r : bind (modify f) k r = k tt (f r).
Proof. reflexivity. Qed.

Lemma bind_cn_Gauge name v (k : option error → Go B) r :
  bind (cn_Gauge name v) k r = k (next_err r) (hand (gauge r name v) r).
Proof.
  unfold bind, cn_Gauge, next_err, hand, gauge.
  destruct r as [? ? ? [c|] ? ? ? ?]; reflexivity.
Qed.

Lemma bind_cn_Count name v (k : option error → Go B) r :
  bind (cn_Count name v) k r = k (next_err r) (hand (count r name v) r).
Proof.
  unfold bind, cn_Count, next_err, hand, count.
  destruct r as [? ? ? [c|] ? ? ? ?]; reflexivity.
Qed.

Lemma bind_index_Some (values : list A) i v (k : A → Go B) r :
  values !! i = Some v → bind (index values i) k r = k v r.
Proof. intros Hv. unfold bind, index. by rewrite Hv. Qed.

Lemma bind_index_None (values : list A) i (k : A → Go B) r :
  values !! i = None → ∃ msg, bind (index values i) k r = (Panicked msg, r).
Proof. intros Hv. unfold bind, index. rewrite Hv. by eexists. Qed.

Lemma bind_assoc {C} (m : Go A) (k : A → Go B) (k' : B → Go C) r :
  bind (bind m k) k' r = bind m (λ a, bind (k a) k') r.
Proof. unfold bind. by destruct (m r) as [[a|msg] r']. Qed.

End Run.

Lemma hand_all_cons s l r : hand_all (s :: l) r = hand_all l (hand s r).
Proof. reflexivity. Qed.

Lemma hand_all_fields l r :
  addr (hand_all l r) = addr r ∧ prefix (hand_all l r) = prefix r ∧
  registry (hand_all l r) = registry r ∧ tags (hand_all l r) = tags r ∧
  percentiles (hand_all l r) = percentiles r ∧ p (hand_all l r) = p r ∧
  ss (hand_all l r) = ss r.
Proof.
  revert r. induction l as [|s l IH]; intros r; [done|].
  rewrite hand_all_cons. destruct (IH (hand s r)) as (-> & -> & -> & -> & -> & -> & ->).
  done.
Qed.

Lemma samples_sent_hand_all l r :
  is_Some (cn r) → samples_sent (hand_all l r) = samples_sent r ++ l.
Proof.
  revert r. induction l as [|s l IH]; intros r [c Hc].
  - by rewrite app_nil_r.
  - rewrite hand_all_cons, IH.
    + unfold samples_sent, hand. rewrite Hc. simpl. by rewrite <- app_assoc.
    + unfold hand. rewrite Hc. simpl. eauto.
Qed.

Lemma cn_hand_all_is_Some l r : is_Some (cn r) → is_Some (cn (hand_all l r)).
Proof.
  revert r. induction l as [|s l IH]; intros r [c Hc]; [by eauto|].
  rewrite hand_all_cons. apply IH. unfold hand. rewrite Hc. simpl. eauto.
Qed.

Lemma set_ss_hand_all m l r : set_ss m (hand_all l r) = hand_all l (set_ss m r).
Proof.
  revert r. induction l as [|s l IH]; intros r; [done|].
  by rewrite !hand_all_cons, IH.
Qed.

(** ** The percentile loop *)

Lemma in_bounds_intro r i : labels_match r → answers_in_full i → in_bounds r i.
Proof.
  unfold labels_match. intros Hl Ha.
  destruct i; simpl in *; try done; intros _; rewrite Ha; lia.
Qed.

Lemma percentile_loop name (conv : float → float) (values : list float) lbls k r :
  (k + length lbls ≤ length values)%nat →
  for_range_from k lbls (λ i lbl,
      v <- index values i ;;
      cn_Gauge (name +:+ lbl) (conv v) ;; ret tt) r
  = (Returned tt,
     hand_all (zip_with (λ lbl v, gauge r (name +:+ lbl) (conv v)) lbls (drop k values)) r).
Proof.
  revert k r. induction lbls as [|lbl lbls IH]; intros k r Hlen; [done|].
  simpl in Hlen. simpl for_range_from.
  destruct (lookup_lt_is_Some_2 values k) as [v Hv]; [lia|].
  rewrite bind_assoc, (bind_index_Some _ _ _ _ _ Hv), bind_assoc, bind_cn_Gauge, bind_ret.
  rewrite IH by lia.
  rewrite (drop_S _ _ _ Hv). simpl zip_with. rewrite hand_all_cons.
  reflexivity.
Qed.

Lemma percentile_loop_short name (conv : float → float) (values : list float) lbls k r :
  (k ≤ length values < k + length lbls)%nat →
  ∃ msg r', for_range_from k lbls (λ i lbl,
      v <- index values i ;;
      cn_Gauge (name +:+ lbl) (conv v) ;; ret tt) r = (Panicked msg, r').
Proof.
  revert k r. induction lbls as [|lbl lbls IH]; intros k r Hlen; [simpl in Hlen; lia|].
  simpl in Hlen. simpl for_range_from. rewrite bind_assoc.
  destruct (values !! k) as [v|] eqn:Hv.
  - rewrite (bind_index_Some _ _ _ _ _ Hv), bind_assoc, bind_cn_Gauge, bind_ret.
    apply IH. apply lookup_lt_Some in Hv. lia.
  - destruct (bind_index_None values k
      (λ v, (cn_Gauge (name +:+ lbl) (conv v) ;; ret tt) ;;
            for_range_from (S k) lbls (λ i lbl,
              v <- index values i ;; cn_Gauge (name +:+ lbl) (conv v) ;; ret tt)) r Hv)
      as [msg Hmsg].
    exists msg, r. exact Hmsg.
Qed.

(** ** The callback against the table *)

Lemma set_ss_same r : set_ss (ss r) r = r.
Proof. by destruct r. Qed.

Lemma gauge_hand s r name v : gauge (hand s r) name v = gauge r name v.
Proof. reflexivity. Qed.

Lemma submit_metric_visit name i r :
  in_bounds r i → submit_metric name i r = (Returned tt, visit name i r).
Proof.
  intros Hb. unfold visit. destruct i as [v|v|v|ms|ms|ms|]; simpl baseline_after;
    rewrite ?set_ss_same; unfold submit_metric.
  - rewrite bind_get, bind_cn_Count. unfold modify. simpl expected_samples.
    rewrite <- set_ss_hand_all. reflexivity.
  - by rewrite bind_cn_Gauge.
  - by rewrite bind_cn_Gauge.
  - do 6 (rewrite bind_cn_Gauge, ?gauge_hand). rewrite bind_get.
    simpl expected_samples. rewrite !hand_all_cons.
    set (r6 := hand _ (hand _ (hand _ (hand _ (hand _ (hand _ r)))))).
    assert (Hf : percentiles r6 = percentiles r ∧ p r6 = p r ∧ tags r6 = tags r) by done.
    destruct Hf as (Hq & Hp & Ht). unfold percentile_samples. rewrite Hq, Hp.
    case_bool_decide as Hn; [|done].
    unfold for_range. rewrite percentile_loop.
    + by rewrite drop_0.
    + simpl in Hb. specialize (Hb Hn). simpl. lia.
  - by do 5 (rewrite bind_cn_Gauge, ?gauge_hand).
  - do 5 (rewrite bind_cn_Gauge, ?gauge_hand). rewrite bind_get.
    simpl expected_samples. rewrite !hand_all_cons.
    set (r5 := hand _ (hand _ (hand _ (hand _ (hand _ r))))).
    assert (Hf : percentiles r5 = percentiles r ∧ p r5 = p r ∧ tags r5 = tags r) by done.
    destruct Hf as (Hq & Hp & Ht). unfold percentile_samples. rewrite Hq, Hp.
    case_bool_decide as Hn; [|done].
    unfold for_range. rewrite percentile_loop.
    + by rewrite drop_0.
    + simpl in Hb. specialize (Hb Hn). simpl. lia.
  - reflexivity.
Qed.

(** ** A whole flush against the table *)

Lemma visit_fields name i r :
  addr (visit name i r) = addr r ∧ prefix (visit name i r) = prefix r ∧
  registry (visit name i r) = registry r ∧ tags (visit name i r) = tags r ∧
  percentiles (visit name i r) = percentiles r ∧ p (visit name i r) = p r ∧
  ss (visit name i r) = baseline_after (ss r) name i.
Proof.
  unfold visit.
  by destruct (hand_all_fields (expected_samples r name i)
                 (set_ss (baseline_after (ss r) name i) r))
    as (-> & -> & -> & -> & -> & -> & ->).
Qed.

Lemma visit_all_fields reg r :
  addr (visit_all reg r) = addr r ∧ prefix (visit_all reg r) = prefix r ∧
  registry (visit_all reg r) = registry r ∧ tags (visit_all reg r) = tags r ∧
  percentiles (visit_all reg r) = percentiles r ∧ p (visit_all reg r) = p r ∧
  ss (visit_all reg r) = baselines reg (ss r).
Proof.
  revert r. induction reg as [|[name i] reg IH]; intros r; [done|].
  unfold visit_all, baselines in *. simpl foldl.
  destruct (IH (visit name i r)) as (-> & -> & -> & -> & -> & -> & ->).
  by destruct (visit_fields name i r) as (-> & -> & -> & -> & -> & -> & ->).
Qed.

Lemma in_bounds_ext r r' i :
  percentiles r' = percentiles r → p r' = p r → in_bounds r i → in_bounds r' i.
Proof. intros Hq Hp. destruct i; simpl; by rewrite ?Hq, ?Hp. Qed.

Lemma for_range_visit_all k reg r :
  Forall (λ e, in_bounds r e.2) reg →
  for_range_from k reg (λ _ entry, submit_metric entry.1 entry.2) r
  = (Returned tt, visit_all reg r).
Proof.
  revert k r. induction reg as [|[name i] reg IH]; intros k r Hb; [done|].
  apply Forall_cons in Hb as [Hi Hb]. simpl for_range_from.
  unfold bind. simpl in Hi. rewrite (submit_metric_visit _ _ _ Hi).
  rewrite IH; [done|].
  destruct (visit_fields name i r) as (_ & _ & _ & _ & Hq & Hp & _).
  eapply Forall_impl; [exact Hb|]. intros e. by apply in_bounds_ext.
Qed.

Lemma submit_visit_all σ r :
  Forall (λ e, in_bounds r e.2) (σ (registry r)) →
  submit σ r = (Returned None, visit_all (σ (registry r)) r).
Proof.
  intros Hb. unfold submit. rewrite bind_get. unfold Each, for_range, bind.
  by rewrite for_range_visit_all.
Qed.

Lemma cn_visit_is_Some name i r : is_Some (cn r) → is_Some (cn (visit name i r)).
Proof. intros Hc. unfold visit. by apply cn_hand_all_is_Some. Qed.

Lemma cn_visit_all_is_Some reg r : is_Some (cn r) → is_Some (cn (visit_all reg r)).
Proof.
  revert r. induction reg as [|[name i] reg IH]; intros r Hc; [done|].
  apply (IH (visit name i r)). by apply cn_visit_is_Some.
Qed.

Lemma samples_sent_visit name i r :
  is_Some (cn r) →
  samples_sent (visit name i r) = samples_sent r ++ expected_samples r name i.
Proof. intros Hc. unfold visit. by rewrite samples_sent_hand_all. Qed.

(** What the table says depends on the reporter only through the tags, the
    percentiles, the labels and the baseline of the name itself. *)
Lemma expected_samples_ext r r' name i :
  tags r' = tags r → percentiles r' = percentiles r → p r' = p r →
  ss r' !! name = ss r !! name →
  expected_samples r' name i = expected_samples r name i.
Proof.
  intros Ht Hq Hp Hs.
  destruct i; simpl; unfold percentile_samples, gauge, count;
    by rewrite ?Ht, ?Hq, ?Hp, ?Hs.
Qed.

Lemma baseline_after_ne m name name' i :
  name ≠ name' → baseline_after m name i !! name' = m !! name'.
Proof. intros Hne. destruct i; simpl; try done. by rewrite lookup_insert_ne. Qed.

Lemma samples_sent_visit_all reg r :
  is_Some (cn r) → NoDup reg.*1 →
  samples_sent (visit_all reg r)
  = samples_sent r ++ flat_map (λ e, expected_samples r e.1 e.2) reg.
Proof.
  revert r. induction reg as [|[name i] reg IH]; intros r Hc Hnd.
  - by rewrite app_nil_r.
  - apply NoDup_cons in Hnd as [Hnotin Hnd].
    change (visit_all ((name, i) :: reg) r) with (visit_all reg (visit name i r)).
    rewrite IH by auto using cn_visit_is_Some.
    rewrite samples_sent_visit by done. simpl flat_map. rewrite <- app_assoc.
    do 2 f_equal.
    destruct (visit_fields name i r) as (_ & _ & _ & Ht & Hq & Hp & Hs).
    clear IH. induction reg as [|[name' i'] reg IH]; [done|].
    simpl in Hnotin. apply not_elem_of_cons in Hnotin as [Hne Hnotin].
    apply NoDup_cons in Hnd as [_ Hnd].
    simpl. rewrite IH by done. f_equal.
    apply expected_samples_ext; try done.
    rewrite Hs. by apply baseline_after_ne.
Qed.

Lemma baselines_not_counter reg m name :
  (∀ v, (name, Counter v) ∉ reg) → baselines reg m !! name = m !! name.
Proof.
  revert m. induction reg as [|[name' i] reg IH]; intros m Hn; [done|].
  unfold baselines in *. simpl foldl. rewrite IH.
  - destruct i; simpl; try done.
    destruct (decide (name' = name)) as [->|Hne].
    + exfalso. eapply Hn. left.
    + by rewrite lookup_insert_ne.
  - intros v Hv. eapply Hn. right. exact Hv.
Qed.

Lemma baselines_not_named reg m name :
  name ∉ reg.*1 → baselines reg m !! name = m !! name.
Proof.
  intros Hn. apply baselines_not_counter. intros v Hv. apply Hn.
  apply list_elem_of_fmap. by exists (name, Counter v).
Qed.

Lemma baselines_counter reg m name v :
  NoDup reg.*1 → (name, Counter v) ∈ reg → baselines reg m !! name = Some v.
Proof.
  revert m. induction reg as [|[name' i] reg IH]; intros m Hnd Hin.
  - by apply elem_of_nil in Hin.
  - apply NoDup_cons in Hnd as [Hnotin Hnd].
    change (baselines ((name', i) :: reg) m)
      with (baselines reg (baseline_after m name' i)).
    apply elem_of_cons in Hin as [Heq|Hin].
    + injection Heq as <- <-. rewrite baselines_not_named by done.
      simpl. by rewrite lookup_insert_eq.
    + by apply IH.
Qed.

(** ** What a run leaves alone *)

Lemma untouched_refl names r : untouched names r r.
Proof. by repeat split. Qed.

Lemma untouched_trans names r1 r2 r3 :
  untouched names r1 r2 → untouched names r2 r3 → untouched names r1 r3.
Proof.
  intros (Ha & Hb & Hc & Hd & He & Hf & Hg & Hh) (Ha' & Hb' & Hc' & Hd' & He' & Hf' & Hg' & Hh').
  repeat split; try congruence.
  intros n Hn. rewrite Hh', Hh; done.
Qed.

Lemma untouched_weaken (names names' : string → Prop) r r' :
  (∀ n, names n → names' n) → untouched names r r' → untouched names' r r'.
Proof.
  intros Hw (Ha & Hb & Hc & Hd & He & Hf & Hg & Hh).
  repeat split; try done. intros n Hn. apply Hh. intros Hn'. by apply Hn, Hw.
Qed.

Section Frames.

Context (names : string → Prop).

Lemma frames_ret {A} (a : A) : frames names (ret a).
Proof. intros r. apply untouched_refl. Qed.

Lemma frames_get : frames names get.
Proof. intros r. apply untouched_refl. Qed.

Lemma frames_panic {A} msg : frames names (panic (A := A) msg).
Proof. intros r. apply untouched_refl. Qed.

Lemma frames_bind {A B} (m : Go A) (k : A → Go B) :
  frames names m → (∀ a, frames names (k a)) → frames names (bind m k).
Proof.
  intros Hm Hk r. unfold bind. specialize (Hm r).
  destruct (m r) as [[a|msg] r']; simpl in *; [|done].
  eapply untouched_trans; [exact Hm|apply Hk].
Qed.

Lemma frames_index {A} (values : list A) i : frames names (index values i).
Proof. unfold index. destruct (values !! i); [apply frames_ret|apply frames_panic]. Qed.

Lemma frames_cn_Gauge name v : frames names (cn_Gauge name v).
Proof.
  intros r. unfold cn_Gauge. destruct r as [? ? ? [c|] ? ? ? ?]; simpl;
    by repeat split.
Qed.

Lemma frames_cn_Count name v : frames names (cn_Count name v).
Proof.
  intros r. unfold cn_Count. destruct r as [? ? ? [c|] ? ? ? ?]; simpl;
    by repeat split.
Qed.

Lemma frames_set_ss name v :
  names name → frames names (modify (λ r, set_ss (<[name := v]> (ss r)) r)).
Proof.
  intros Hn r. repeat split; try done. simpl. intros n Hn'.
  apply lookup_insert_ne. by intros ->.
Qed.

Lemma frames_for_range_from {A} k (l : list A) (body : nat → A → Go unit) :
  (∀ i x, x ∈ l → frames names (body i x)) →
  frames names (for_range_from k l body).
Proof.
  revert k. induction l as [|x l IH]; intros k Hbody; [apply frames_ret|].
  simpl. apply frames_bind.
  - apply Hbody. left.
  - intros _. apply IH. intros i y Hy. apply Hbody. by right.
Qed.

End Frames.

Lemma frames_weaken {A} (names names' : string → Prop) (m : Go A) :
  (∀ n, names n → names' n) → frames names m → frames names' m.
Proof. intros Hw Hm r. eapply untouched_weaken; [exact Hw|apply Hm]. Qed.

Create HintDb frames.
#[local] Hint Resolve frames_ret frames_get frames_panic frames_index
  frames_cn_Gauge frames_cn_Count : frames.

Ltac frames_step :=
  first [ apply frames_bind; [|intros ?]
        | apply frames_for_range_from; intros ? ? _
        | case_bool_decide
        | solve [eauto with frames] ].

Lemma frames_submit_metric name i :
  frames (λ n, n = name ∧ ∃ v, i = Counter v) (submit_metric name i).
Proof.
  destruct i as [v|v|v|ms|ms|ms|]; unfold submit_metric; repeat frames_step.
  apply frames_set_ss. eauto.
Qed.

Lemma frames_Each reg :
  frames (λ n, ∃ v, (n, Counter v) ∈ reg) (Each reg submit_metric).
Proof.
  unfold Each, for_range. apply frames_for_range_from. intros _ [name i] Hin.
  eapply frames_weaken; [|apply frames_submit_metric].
  simpl. intros n [-> [v ->]]. eauto.
Qed.

Lemma frames_submit σ r :
  untouched (λ n, ∃ v, (n, Counter v) ∈ σ (registry r)) r (submit σ r).2.
Proof.
  unfold submit. rewrite bind_get.
  apply (frames_bind _ (Each (σ (registry r)) submit_metric) (λ _, ret None)).
  - apply frames_Each.
  - intros _. apply frames_ret.
Qed.

(** ** The result of a flush *)

Lemma submit_result σ r :
  (submit σ r).1 = Returned None ∨ ∃ msg, (submit σ r).1 = Panicked msg.
Proof.
  unfold submit. rewrite bind_get. unfold bind.
  destruct (Each (σ (registry r)) submit_metric r) as [[[]|msg] r']; simpl; eauto.
Qed.

(** ** Counting the samples of one counter *)

Lemma expected_samples_gauges r name i :
  ¬ is_counter i → Forall (λ s, is_gauge s) (expected_samples r name i).
Proof.
  intros Hi. destruct i; simpl; unfold percentile_samples;
    repeat first [ by (exfalso; apply Hi; eexists)
                 | apply Forall_nil_2
                 | apply Forall_cons_2; [done|]
                 | case_bool_decide ].
  - generalize (HistogramSnapshot.Percentiles snapshot (percentiles r)).
    induction (p r) as [|lbl lbls IH]; intros [|v vs]; simpl; auto.
  - generalize (TimerSnapshot.Percentiles snapshot (percentiles r)).
    induction (p r) as [|lbl lbls IH]; intros [|v vs]; simpl; auto.
Qed.

Lemma filter_count_gauges name (l : list statsd.Sample) :
  Forall (λ s, is_gauge s) l → filter (λ s, is_count_of name s) l = [].
Proof.
  induction 1 as [|s l Hs _ IH]; [done|].
  rewrite filter_cons_False; [done|]. destruct s; simpl in *; tauto.
Qed.

Lemma zero_count_gauges (l : list statsd.Sample) :
  Forall (λ s, is_gauge s) l → zero_count <$> l = l.
Proof.
  induction 1 as [|s l Hs _ IH]; [done|].
  rewrite fmap_cons, IH. destruct s; simpl in *; [tauto|done].
Qed.

Lemma filter_count_other r name name' i :
  name' ≠ name → filter (λ s, is_count_of name s) (expected_samples r name' i) = [].
Proof.
  intros Hne. destruct i as [v| | | | | |];
    try (apply filter_count_gauges, expected_samples_gauges; by intros [? ?]).
  simpl. rewrite filter_cons_False; [done|].
  unfold count. simpl. by intros ?%bool_decide_unpack.
Qed.

Lemma filter_count_self r name v :
  filter (λ s, is_count_of name s) (expected_samples r name (Counter v))
  = [count r name (Int64.sub v (default 0 (ss r !! name)))].
Proof.
  simpl. rewrite filter_cons_True; [done|].
  unfold count. simpl. by apply bool_decide_pack.
Qed.

Lemma filter_count_not_named r name reg :
  name ∉ reg.*1 →
  filter (λ s, is_count_of name s) (flat_map (λ e, expected_samples r e.1 e.2) reg) = [].
Proof.
  induction reg as [|[name' i] reg IH]; intros Hn; [done|].
  simpl in Hn. apply not_elem_of_cons in Hn as [Hne Hn].
  simpl. rewrite filter_app, IH by done.
  rewrite filter_count_other by done. done.
Qed.

Lemma filter_count_flush r name v reg :
  NoDup reg.*1 → (name, Counter v) ∈ reg →
  filter (λ s, is_count_of name s) (flat_map (λ e, expected_samples r e.1 e.2) reg)
  = [count r name (Int64.sub v (default 0 (ss r !! name)))].
Proof.
  induction reg as [|[name' i] reg IH]; intros Hnd Hin.
  - by apply elem_of_nil in Hin.
  - apply NoDup_cons in Hnd as [Hnotin Hnd]. simpl. rewrite filter_app.
    apply elem_of_cons in Hin as [Heq|Hin].
    + injection Heq as <- <-.
      by rewrite filter_count_self, filter_count_not_named.
    + rewrite IH by done. rewrite filter_count_other; [done|].
      intros ->. apply Hnotin. apply list_elem_of_fmap. by exists (name, Counter v).
Qed.

Lemma wrap_in_range z : Int64.in_range z → Int64.wrap z = z.
Proof.
  unfold Int64.in_range, Int64.wrap, Int64.min_int, Int64.max_int. intros Hz.
  rewrite Z.mod_small; lia.
Qed.

Lemma sub_in_range a b : Int64.in_range (a - b) → Int64.sub a b = a - b.
Proof. apply wrap_in_range. Qed.

Lemma sub_zero a : Int64.in_range a → Int64.sub a 0 = a.
Proof. intros Ha. unfold Int64.sub. rewrite Z.sub_0_r. by apply wrap_in_range. Qed.

Lemma sub_diag a : Int64.sub a a = 0.
Proof. unfold Int64.sub. by rewrite Z.sub_diag. Qed.

(** One flush of a reporter that is fit to flush: it returns, and what it
    sent and stored is what the table says. *)
Lemma flush_table σ r :
  is_Some (cn r) → labels_match r →
  NoDup (σ (registry r)).*1 →
  Forall (λ e, answers_in_full e.2) (σ (registry r)) →
  ∃ r', Flush σ r = (Returned None, r') ∧
    samples_sent r' = samples_sent r
      ++ flat_map (λ e, expected_samples r e.1 e.2) (σ (registry r)) ∧
    ss r' = baselines (σ (registry r)) (ss r) ∧
    untouched (λ n, ∃ v, (n, Counter v) ∈ σ (registry r)) r r' ∧
    is_Some (cn r').
Proof.
  intros Hc Hl Hnd Ha. exists (visit_all (σ (registry r)) r).
  assert (Hrun : Flush σ r = (Returned None, visit_all (σ (registry r)) r)).
  { apply submit_visit_all. eapply Forall_impl; [exact Ha|].
    intros e He. by apply in_bounds_intro. }
  split; [exact Hrun|]. split; [by apply samples_sent_visit_all|].
  split; [by destruct (visit_all_fields (σ (registry r)) r) as (_ & _ & _ & _ & _ & _ & ->)|].
  split.
  - pose proof (frames_submit σ r) as Hf. unfold Flush in Hrun. by rewrite Hrun in Hf.
  - by apply cn_visit_all_is_Some.
Qed.

(** * The properties of the specification *)

(** ** Counters *)

(** C1. For every counter, each flush emits exactly one count-type sample
    whose value is the counter's current cumulative count minus the
    baseline stored for its name ([int64] subtraction), and the baseline is
    then the current cumulative count; a name never seen before has the
    baseline 0, so the first flush emits the full cumulative count.  For
    cumulative values [c1] then [c2] across two flushes the deltas are [c1]
    and [c2 - c1]. *)
Theorem counter_delta_across_flushes (σ1 σ2 : Store) r name c1 c2 :
  is_Some (cn r) → labels_match r →
  NoDup (σ1 (registry r)).*1 → Forall (λ e, answers_in_full e.2) (σ1 (registry r)) →
  NoDup (σ2 (registry r)).*1 → Forall (λ e, answers_in_full e.2) (σ2 (registry r)) →
  (name, Counter c1) ∈ σ1 (registry r) →
  (name, Counter c2) ∈ σ2 (registry r) →
  ∃ r1 r2 out1 out2,
    Flush σ1 r = (Returned None, r1) ∧ samples_sent r1 = samples_sent r ++ out1 ∧
    Flush σ2 r1 = (Returned None, r2) ∧ samples_sent r2 = samples_sent r1 ++ out2 ∧
    filter (λ s, is_count_of name s) out1
      = [statsd.CountSample name (Int64.sub c1 (default 0 (ss r !! name))) (tags r) 1] ∧
    ss r1 !! name = Some c1 ∧
    filter (λ s, is_count_of name s) out2
      = [statsd.CountSample name (Int64.sub c2 c1) (tags r) 1] ∧
    ss r2 !! name = Some c2 ∧
    (ss r !! name = None → Int64.in_range c1 →
       Int64.sub c1 (default 0 (ss r !! name)) = c1) ∧
    (Int64.in_range (c2 - c1) → Int64.sub c2 c1 = c2 - c1).
Proof.
  intros Hc Hl Hnd1 Ha1 Hnd2 Ha2 Hin1 Hin2.
  destruct (flush_table σ1 r Hc Hl Hnd1 Ha1) as (r1 & Hrun1 & Hsent1 & Hss1 & Hu1 & Hc1).
  destruct Hu1 as (_ & _ & Hreg & Htags & Hq & Hp & _).
  assert (Hl1 : labels_match r1) by (unfold labels_match; by rewrite Hp, Hq).
  rewrite <- Hreg in Hnd2, Ha2, Hin2.
  destruct (flush_table σ2 r1 Hc1 Hl1 Hnd2 Ha2) as (r2 & Hrun2 & Hsent2 & Hss2 & _ & _).
  assert (Hb1 : ss r1 !! name = Some c1) by (rewrite Hss1; by apply baselines_counter).
  exists r1, r2, (flat_map (λ e, expected_samples r e.1 e.2) (σ1 (registry r))),
    (flat_map (λ e, expected_samples r1 e.1 e.2) (σ2 (registry r1))).
  repeat split; try done.
  - by apply filter_count_flush.
  - rewrite (filter_count_flush r1 name c2) by done.
    unfold count. by rewrite Hb1, Htags.
  - rewrite Hss2. by apply baselines_counter.
  - intros -> Hr. by apply sub_zero.
  - apply sub_in_range.
Qed.

(** The counter of [TestReporter_FlushCounter]: 2, then 3. *)
Lemma counter_delta_across_flushes_witness :
  ∃ r1 r2 out1 out2,
    Flush (Fixtures.store [("foo", Counter 2)]) Fixtures.reporter = (Returned None, r1) ∧
    samples_sent r1 = samples_sent Fixtures.reporter ++ out1 ∧
    Flush (Fixtures.store [("foo", Counter 3)]) r1 = (Returned None, r2) ∧
    samples_sent r2 = samples_sent r1 ++ out2 ∧
    filter (λ s, is_count_of "foo" s) out1
      = [statsd.CountSample "foo"
           (Int64.sub 2 (default 0 (ss Fixtures.reporter !! "foo")))
           (tags Fixtures.reporter) 1] ∧
    ss r1 !! "foo" = Some 2 ∧
    filter (λ s, is_count_of "foo" s) out2
      = [statsd.CountSample "foo" (Int64.sub 3 2) (tags Fixtures.reporter) 1] ∧
    ss r2 !! "foo" = Some 3 ∧
    (ss Fixtures.reporter !! "foo" = None → Int64.in_range 2 →
       Int64.sub 2 (default 0 (ss Fixtures.reporter !! "foo")) = 2) ∧
    (Int64.in_range (3 - 2) → Int64.sub 3 2 = 3 - 2).
Proof.
  apply (counter_delta_across_flushes
           (Fixtures.store [("foo", Counter 2)]) (Fixtures.store [("foo", Counter 3)])
           Fixtures.reporter "foo" 2 3).
  - by eexists.
  - reflexivity.
  - apply NoDup_singleton.
  - by repeat constructor.
  - apply NoDup_singleton.
  - by repeat constructor.
  - apply list_elem_of_singleton. reflexivity.
  - apply list_elem_of_singleton. reflexivity.
Defined.

(** C10, as stated, fails where the [int64] subtraction wraps: a counter
    flushed at 1 and then found at the smallest [int64] is lower than its
    baseline, and the delta sent is the largest [int64], which is not
    negative. *)
Lemma lower_count_delta_counterexample :
  ∃ r1 r2,
    Flush (Fixtures.store [("foo", Counter 1)]) Fixtures.reporter = (Returned None, r1) ∧
    ss r1 !! "foo" = Some 1 ∧
    Int64.in_range Int64.min_int ∧ Int64.min_int < 1 ∧
    Flush (Fixtures.store [("foo", Counter Int64.min_int)]) r1 = (Returned None, r2) ∧
    samples_sent r2 = samples_sent r1 ++ [statsd.CountSample "foo" Int64.max_int [] 1] ∧
    ¬ Int64.max_int < 0.
Proof.
  eexists _, _. split; [vm_compute; reflexivity|].
  split; [vm_compute; reflexivity|].
  split; [by vm_compute|]. split; [done|].
  split; [vm_compute; reflexivity|].
  split; [vm_compute; reflexivity|]. by vm_compute.
Qed.

(** C10, amended.  If a counter's cumulative count [v] is lower at a flush
    than the baseline [l] stored for its name, the flush sends the [int64]
    difference [v - l] without clamping, which is the negative number
    [v - l] whenever that is no smaller than the smallest [int64]; the
    baseline becomes [v], and the next flush computes its delta against
    [v]. *)
Theorem lower_count_delta (σ σ' : Store) r name v l v' :
  is_Some (cn r) → labels_match r →
  NoDup (σ (registry r)).*1 → Forall (λ e, answers_in_full e.2) (σ (registry r)) →
  NoDup (σ' (registry r)).*1 → Forall (λ e, answers_in_full e.2) (σ' (registry r)) →
  (name, Counter v) ∈ σ (registry r) →
  (name, Counter v') ∈ σ' (registry r) →
  ss r !! name = Some l → v < l →
  ∃ r1 r2 out1 out2,
    Flush σ r = (Returned None, r1) ∧ samples_sent r1 = samples_sent r ++ out1 ∧
    filter (λ s, is_count_of name s) out1
      = [statsd.CountSample name (Int64.sub v l) (tags r) 1] ∧
    (Int64.min_int <= v - l → Int64.sub v l = v - l ∧ Int64.sub v l < 0) ∧
    ss r1 !! name = Some v ∧
    Flush σ' r1 = (Returned None, r2) ∧ samples_sent r2 = samples_sent r1 ++ out2 ∧
    filter (λ s, is_count_of name s) out2
      = [statsd.CountSample name (Int64.sub v' v) (tags r) 1].
Proof.
  intros Hc Hl Hnd1 Ha1 Hnd2 Ha2 Hin1 Hin2 Hbase Hlt.
  destruct (flush_table σ r Hc Hl Hnd1 Ha1) as (r1 & Hrun1 & Hsent1 & Hss1 & Hu1 & Hc1).
  destruct Hu1 as (_ & _ & Hreg & Htags & Hq & Hp & _).
  assert (Hl1 : labels_match r1) by (unfold labels_match; by rewrite Hp, Hq).
  rewrite <- Hreg in Hnd2, Ha2, Hin2.
  destruct (flush_table σ' r1 Hc1 Hl1 Hnd2 Ha2) as (r2 & Hrun2 & Hsent2 & _ & _ & _).
  assert (Hb1 : ss r1 !! name = Some v) by (rewrite Hss1; by apply baselines_counter).
  exists r1, r2, (flat_map (λ e, expected_samples r e.1 e.2) (σ (registry r))),
    (flat_map (λ e, expected_samples r1 e.1 e.2) (σ' (registry r1))).
  split; [done|]. split; [done|]. split.
  { rewrite (filter_count_flush r name v) by done. unfold count. by rewrite Hbase. }
  split.
  { intros Hlow. rewrite sub_in_range; [lia|].
    unfold Int64.in_range, Int64.max_int in *. lia. }
  split; [done|]. split; [done|]. split; [done|].
  rewrite (filter_count_flush r1 name v') by done.
  unfold count. by rewrite Hb1, Htags.
Qed.

(** A counter flushed at 5 and cleared: the delta is -5, and after an
    increment to 2 the next delta is 2. *)
Lemma lower_count_delta_witness :
  let r := (Flush (Fixtures.store [("foo", Counter 5)]) Fixtures.reporter).2 in
  ∃ r1 r2 out1 out2,
    Flush (Fixtures.store [("foo", Counter 0)]) r = (Returned None, r1) ∧
    samples_sent r1 = samples_sent r ++ out1 ∧
    filter (λ s, is_count_of "foo" s) out1
      = [statsd.CountSample "foo" (Int64.sub 0 5) (tags r) 1] ∧
    (Int64.min_int <= 0 - 5 → Int64.sub 0 5 = 0 - 5 ∧ Int64.sub 0 5 < 0) ∧
    ss r1 !! "foo" = Some 0 ∧
    Flush (Fixtures.store [("foo", Counter 2)]) r1 = (Returned None, r2) ∧
    samples_sent r2 = samples_sent r1 ++ out2 ∧
    filter (λ s, is_count_of "foo" s) out2
      = [statsd.CountSample "foo" (Int64.sub 2 0) (tags r) 1].
Proof.
  apply (lower_count_delta
           (Fixtures.store [("foo", Counter 0)]) (Fixtures.store [("foo", Counter 2)])
           (Flush (Fixtures.store [("foo", Counter 5)]) Fixtures.reporter).2
           "foo" 0 5 2).
  - by eexists.
  - reflexivity.
  - apply NoDup_singleton.
  - by repeat constructor.
  - apply NoDup_singleton.
  - by repeat constructor.
  - apply list_elem_of_singleton. reflexivity.
  - apply list_elem_of_singleton. reflexivity.
  - vm_compute. reflexivity.
  - lia.
Defined.

(** ** Flushing twice *)

Lemma expected_samples_again r r' name i :
  tags r' = tags r → percentiles r' = percentiles r → p r' = p r →
  (∀ v, i = Counter v → ss r' !! name = Some v) →
  expected_samples r' name i = zero_count <$> expected_samples r name i.
Proof.
  intros Ht Hq Hp Hs. destruct i as [v| | | | | |].
  { simpl. unfold count. by rewrite (Hs v eq_refl), Ht, sub_diag. }
  all: rewrite zero_count_gauges
    by (apply expected_samples_gauges; by intros [? ?]).
  all: simpl; unfold percentile_samples, gauge; by rewrite ?Ht, ?Hq, ?Hp.
Qed.

Lemma flat_map_again r r' (reg : Registry) :
  tags r' = tags r → percentiles r' = percentiles r → p r' = p r →
  (∀ name v, (name, Counter v) ∈ reg → ss r' !! name = Some v) →
  flat_map (λ e, expected_samples r' e.1 e.2) reg
  = zero_count <$> flat_map (λ e, expected_samples r e.1 e.2) reg.
Proof.
  intros Ht Hq Hp. induction reg as [|[name i] reg IH]; intros Hs; [done|].
  simpl. rewrite fmap_app, IH.
  - f_equal. apply expected_samples_again; try done.
    intros v ->. apply Hs. left.
  - intros name' v Hin. apply Hs. by right.
Qed.

Lemma filter_gauge_zero_count (l : list statsd.Sample) :
  filter (λ s, is_gauge s) (zero_count <$> l) = filter (λ s, is_gauge s) l.
Proof.
  induction l as [|s l IH]; [done|]. rewrite fmap_cons.
  destruct s; simpl.
  - rewrite !filter_cons_False by (simpl; tauto). exact IH.
  - rewrite !filter_cons_True by done. by rewrite IH.
Qed.

(** C4. Calling flush twice with no metric changes in between sends a
    delta of 0 for every counter on the second call, and sends for gauges,
    histograms, meters and timers the same samples as the first: the
    second flush sends the samples of the first with every count value
    replaced by 0, in the same order when the registry hands out its
    entries in the same order, and in the order of the second iteration
    otherwise. *)
Theorem flush_twice (σ σ' : Store) r :
  is_Some (cn r) → labels_match r →
  NoDup (σ (registry r)).*1 → Forall (λ e, answers_in_full e.2) (σ (registry r)) →
  σ' (registry r) ≡ₚ σ (registry r) →
  ∃ r1 r2 out1 out2,
    Flush σ r = (Returned None, r1) ∧ samples_sent r1 = samples_sent r ++ out1 ∧
    Flush σ' r1 = (Returned None, r2) ∧ samples_sent r2 = samples_sent r1 ++ out2 ∧
    (σ' (registry r) = σ (registry r) → out2 = zero_count <$> out1) ∧
    out2 ≡ₚ zero_count <$> out1 ∧
    (∀ name v, (name, Counter v) ∈ σ (registry r) →
       filter (λ s, is_count_of name s) out2 = [statsd.CountSample name 0 (tags r) 1]) ∧
    filter (λ s, is_gauge s) out2 ≡ₚ filter (λ s, is_gauge s) out1.
Proof.
  intros Hc Hl Hnd Ha Hperm.
  destruct (flush_table σ r Hc Hl Hnd Ha) as (r1 & Hrun1 & Hsent1 & Hss1 & Hu1 & Hc1).
  destruct Hu1 as (_ & _ & Hreg & Htags & Hq & Hp & _).
  assert (Hl1 : labels_match r1) by (unfold labels_match; by rewrite Hp, Hq).
  assert (Hnd' : NoDup (σ' (registry r1)).*1) by by rewrite Hreg, Hperm.
  assert (Ha' : Forall (λ e, answers_in_full e.2) (σ' (registry r1)))
    by by rewrite Hreg, Hperm.
  destruct (flush_table σ' r1 Hc1 Hl1 Hnd' Ha') as (r2 & Hrun2 & Hsent2 & _ & _ & _).
  rewrite Hreg in Hsent2, Hnd'.
  assert (Hb : ∀ name v, (name, Counter v) ∈ σ' (registry r) → ss r1 !! name = Some v).
  { intros name v Hin. rewrite Hss1. apply baselines_counter; [done|].
    by rewrite <- Hperm. }
  assert (Hout : flat_map (λ e, expected_samples r1 e.1 e.2) (σ' (registry r))
                 = zero_count <$> flat_map (λ e, expected_samples r e.1 e.2) (σ' (registry r)))
    by by apply flat_map_again.
  exists r1, r2, (flat_map (λ e, expected_samples r e.1 e.2) (σ (registry r))),
    (flat_map (λ e, expected_samples r1 e.1 e.2) (σ' (registry r))).
  split; [done|]. split; [done|]. split; [done|]. split; [done|].
  split; [intros Heq; by rewrite Hout, Heq|].
  split; [by rewrite Hout, Hperm|]. split.
  - intros name v Hin. rewrite <- Hperm in Hin.
    rewrite (filter_count_flush r1 name v) by done.
    unfold count. by rewrite (Hb name v Hin), sub_diag, Htags.
  - rewrite Hout, filter_gauge_zero_count. by rewrite Hperm.
Qed.

(** One metric of every kind flushed twice, the second time in the
    reverse order. *)
Lemma flush_twice_witness :
  let σ := Fixtures.store Fixtures.all_kinds in
  let σ' := Fixtures.store (reverse Fixtures.all_kinds) in
  let r := Fixtures.reporter in
  ∃ r1 r2 out1 out2,
    Flush σ r = (Returned None, r1) ∧ samples_sent r1 = samples_sent r ++ out1 ∧
    Flush σ' r1 = (Returned None, r2) ∧ samples_sent r2 = samples_sent r1 ++ out2 ∧
    (σ' (registry r) = σ (registry r) → out2 = zero_count <$> out1) ∧
    out2 ≡ₚ zero_count <$> out1 ∧
    (∀ name v, (name, Counter v) ∈ σ (registry r) →
       filter (λ s, is_count_of name s) out2 = [statsd.CountSample name 0 (tags r) 1]) ∧
    filter (λ s, is_gauge s) out2 ≡ₚ filter (λ s, is_gauge s) out1.
Proof.
  apply (flush_twice (Fixtures.store Fixtures.all_kinds)
           (Fixtures.store (reverse Fixtures.all_kinds)) Fixtures.reporter).
  - by eexists.
  - reflexivity.
  - apply (bool_decide_unpack _). by vm_compute.
  - repeat constructor; simpl; intros qs; apply length_fmap.
  - apply reverse_Permutation.
Defined.

(** ** The result and the footprint of a flush *)

(** C8. A flush that gets through the registry returns nil, for every
    reporter and registry, whatever the transport answered to the writes:
    no run of [Flush] returns an error, and a reporter whose label cache
    matches its percentiles gets through every registry whose snapshots
    answer [Percentiles] in full. *)
Theorem flush_returns_nil (σ : Store) r :
  (∀ res r', Flush σ r = (Returned res, r') → res = None) ∧
  (labels_match r → Forall (λ e, answers_in_full e.2) (σ (registry r)) →
   ∃ r', Flush σ r = (Returned None, r')).
Proof.
  split.
  - intros res r' Hrun. destruct (submit_result σ r) as [Hres|[msg Hres]];
      unfold Flush in Hrun; rewrite Hrun in Hres; simpl in Hres; congruence.
  - intros Hl Ha. eexists. apply submit_visit_all.
    eapply Forall_impl; [exact Ha|]. intros e He. by apply in_bounds_intro.
Qed.

(** Every write of the flush is refused, and the flush returns nil. *)
Lemma flush_returns_nil_witness :
  ∃ r', Flush (Fixtures.store Fixtures.all_kinds) Fixtures.reporter_flaky
        = (Returned None, r').
Proof.
  apply (proj2 (flush_returns_nil (Fixtures.store Fixtures.all_kinds)
                  Fixtures.reporter_flaky)).
  - reflexivity.
  - repeat constructor; simpl; intros qs; apply length_fmap.
Defined.

(** C9. A flush changes nothing of the reporter but the baseline table
    (and the state of the client behind [cn]): address, prefix, registry,
    tags, percentiles and label cache are as before, and in the baseline
    table only the entries of the counters the registry holds at that
    flush can differ. *)
Theorem flush_frame (σ : Store) r :
  let r' := (Flush σ r).2 in
  addr r' = addr r ∧ prefix r' = prefix r ∧ registry r' = registry r ∧
  tags r' = tags r ∧ percentiles r' = percentiles r ∧ p r' = p r ∧
  statsd.Namespace <$> cn r' = statsd.Namespace <$> cn r ∧
  ∀ name, (∀ v, (name, Counter v) ∉ σ (registry r)) → ss r' !! name = ss r !! name.
Proof.
  destruct (frames_submit σ r) as (Ha & Hb & Hc & Hd & He & Hf & Hg & Hh).
  simpl. unfold Flush. repeat split; try done.
  intros name Hn. apply Hh. intros [v Hv]. by apply (Hn v).
Qed.

(** ** Histograms, meters and timers *)

(** A flush of a registry that holds one metric is one call of the
    callback. *)
Lemma flush_single (σ : Store) r name i r' :
  σ (registry r) = [(name, i)] →
  submit_metric name i r = (Returned tt, r') →
  Flush σ r = (Returned None, r').
Proof.
  intros Hreg Hrun. unfold Flush, submit. rewrite bind_get, Hreg.
  unfold Each, for_range, bind. simpl. unfold bind. by rewrite Hrun.
Qed.

(** A flush of a registry that holds the metric somewhere sends the
    samples of the table for it as one block. *)
Lemma flush_block (σ : Store) r pre name i post :
  is_Some (cn r) → labels_match r →
  NoDup (σ (registry r)).*1 → Forall (λ e, answers_in_full e.2) (σ (registry r)) →
  σ (registry r) = pre ++ (name, i) :: post →
  ∃ r' before after,
    Flush σ r = (Returned None, r') ∧
    samples_sent r' = samples_sent r ++ before ++ expected_samples r name i ++ after.
Proof.
  intros Hc Hl Hnd Ha Hreg.
  destruct (flush_table σ r Hc Hl Hnd Ha) as (r' & Hrun & Hsent & _).
  exists r', (flat_map (λ e, expected_samples r e.1 e.2) pre),
    (flat_map (λ e, expected_samples r e.1 e.2) post).
  split; [done|]. rewrite Hsent, Hreg, flat_map_app. reflexivity.
Qed.

Lemma percentile_samples_match r name conv values :
  percentile_samples r name conv values
  = match percentiles r with
    | [] => []
    | _ :: _ =>
        zip_with (λ lbl v, statsd.GaugeSample (name +:+ lbl) (conv v) (tags r) 1)
          (p r) values
    end.
Proof.
  unfold percentile_samples. destruct (percentiles r); [done|].
  rewrite bool_decide_eq_true_2; [done|simpl; lia].
Qed.

Lemma percentile_samples_length r name conv values :
  (percentiles r ≠ [] → labels_match r) →
  length values = length (percentiles r) →
  length (percentile_samples r name conv values) = length (percentiles r).
Proof.
  intros Hl Hv. rewrite percentile_samples_match.
  destruct (percentiles r) as [|q qs] eqn:Hq; [done|].
  rewrite length_zip_with. unfold labels_match in Hl. rewrite Hq in Hl.
  rewrite Hl by done. lia.
Qed.

(** C2. For every histogram a flush sends gauge-type samples in the order
    [.count], [.max], [.min], [.mean], [.stddev], [.var], followed by one
    gauge per configured percentile, in list order, labelled from the
    label cache and valued by the snapshot's percentile values: 6 plus the
    number of percentiles (11 for 5); with no percentiles, the first 6
    only. *)
Theorem histogram_samples r name (ms : HistogramSnapshot.t) :
  is_Some (cn r) →
  (∀ qs, length (HistogramSnapshot.Percentiles ms qs) = length qs) →
  (percentiles r ≠ [] → labels_match r) →
  let g suffix v := statsd.GaugeSample (name +:+ suffix) v (tags r) 1 in
  let six :=
    [g ".count" (Float64.of_int64 (HistogramSnapshot.Count ms));
     g ".max" (Float64.of_int64 (HistogramSnapshot.Max ms));
     g ".min" (Float64.of_int64 (HistogramSnapshot.Min ms));
     g ".mean" (HistogramSnapshot.Mean ms);
     g ".stddev" (HistogramSnapshot.StdDev ms);
     g ".var" (HistogramSnapshot.Variance ms)] in
  let pcts :=
    match percentiles r with
    | [] => []
    | _ :: _ => zip_with g (p r) (HistogramSnapshot.Percentiles ms (percentiles r))
    end in
  ∃ r',
    submit_metric name (Histogram ms) r = (Returned tt, r') ∧
    (∀ σ : Store, σ (registry r) = [(name, Histogram ms)] →
       Flush σ r = (Returned None, r')) ∧
    (∀ (σ : Store) pre post,
       σ (registry r) = pre ++ (name, Histogram ms) :: post →
       labels_match r → NoDup (σ (registry r)).*1 →
       Forall (λ e, answers_in_full e.2) (σ (registry r)) →
       ∃ r'' before after,
         Flush σ r = (Returned None, r'') ∧
         samples_sent r'' = samples_sent r ++ before ++ (six ++ pcts) ++ after) ∧
    samples_sent r' = samples_sent r ++ six ++ pcts ∧
    length pcts = length (percentiles r) ∧
    length (six ++ pcts) = (6 + length (percentiles r))%nat ∧
    (percentiles r = [] → samples_sent r' = samples_sent r ++ six).
Proof.
  intros Hc Ha Hl g six pcts.
  assert (Hb : in_bounds r (Histogram ms)).
  { simpl. intros Hn. rewrite Ha. unfold labels_match in Hl. rewrite Hl; [done|].
    intros Hq. rewrite Hq in Hn. simpl in Hn. lia. }
  pose proof (submit_metric_visit name _ _ Hb) as Hrun.
  pose proof (samples_sent_visit name (Histogram ms) r Hc) as Hsent.
  simpl expected_samples in Hsent.
  rewrite percentile_samples_match in Hsent.
  assert (Hlen : length pcts = length (percentiles r)).
  { pose proof (percentile_samples_length r name id _ Hl (Ha (percentiles r))) as Hlen.
    by rewrite percentile_samples_match in Hlen. }
  exists (visit name (Histogram ms) r).
  split; [done|]. split; [intros σ Hreg; by eapply flush_single|].
  split.
  { intros σ pre post Hreg Hl' Hnd Hall.
    destruct (flush_block σ r pre name (Histogram ms) post Hc Hl' Hnd Hall Hreg)
      as (r'' & before & after & Hrun' & Hsent').
    simpl expected_samples in Hsent'. rewrite percentile_samples_match in Hsent'.
    by exists r'', before, after. }
  split; [exact Hsent|]. split; [exact Hlen|].
  split; [rewrite length_app, Hlen; done|].
  intros Hq. rewrite Hsent. by rewrite Hq.
Qed.

(** The histogram of [TestReporter_FlushHistogram] under the default
    percentiles. *)
Lemma histogram_samples_witness :
  let r := Fixtures.reporter in
  let name := "foo" in
  let ms := Fixtures.histogram in
  let g suffix v := statsd.GaugeSample (name +:+ suffix) v (tags r) 1 in
  let six :=
    [g ".count" (Float64.of_int64 (HistogramSnapshot.Count ms));
     g ".max" (Float64.of_int64 (HistogramSnapshot.Max ms));
     g ".min" (Float64.of_int64 (HistogramSnapshot.Min ms));
     g ".mean" (HistogramSnapshot.Mean ms);
     g ".stddev" (HistogramSnapshot.StdDev ms);
     g ".var" (HistogramSnapshot.Variance ms)] in
  let pcts :=
    match percentiles r with
    | [] => []
    | _ :: _ => zip_with g (p r) (HistogramSnapshot.Percentiles ms (percentiles r))
    end in
  ∃ r',
    submit_metric name (Histogram ms) r = (Returned tt, r') ∧
    (∀ σ : Store, σ (registry r) = [(name, Histogram ms)] →
       Flush σ r = (Returned None, r')) ∧
    (∀ (σ : Store) pre post,
       σ (registry r) = pre ++ (name, Histogram ms) :: post →
       labels_match r → NoDup (σ (registry r)).*1 →
       Forall (λ e, answers_in_full e.2) (σ (registry r)) →
       ∃ r'' before after,
         Flush σ r = (Returned None, r'') ∧
         samples_sent r'' = samples_sent r ++ before ++ (six ++ pcts) ++ after) ∧
    samples_sent r' = samples_sent r ++ six ++ pcts ∧
    length pcts = length (percentiles r) ∧
    length (six ++ pcts) = (6 + length (percentiles r))%nat ∧
    (percentiles r = [] → samples_sent r' = samples_sent r ++ six).
Proof.
  apply (histogram_samples Fixtures.reporter "foo" Fixtures.histogram).
  - by eexists.
  - intros qs. apply length_fmap.
  - intros _. reflexivity.
Defined.

(** C5. For every meter a flush sends gauge-type samples in the order
    [.count], [.rate1], [.rate5], [.rate15], [.mean] (the mean rate) and
    nothing else, whatever the percentiles and labels of the reporter. *)
Theorem meter_samples r name (ms : MeterSnapshot.t) :
  is_Some (cn r) →
  let g suffix v := statsd.GaugeSample (name +:+ suffix) v (tags r) 1 in
  let five :=
    [g ".count" (Float64.of_int64 (MeterSnapshot.Count ms));
     g ".rate1" (MeterSnapshot.Rate1 ms);
     g ".rate5" (MeterSnapshot.Rate5 ms);
     g ".rate15" (MeterSnapshot.Rate15 ms);
     g ".mean" (MeterSnapshot.RateMean ms)] in
  ∃ r',
    submit_metric name (Meter ms) r = (Returned tt, r') ∧
    (∀ σ : Store, σ (registry r) = [(name, Meter ms)] →
       Flush σ r = (Returned None, r')) ∧
    (∀ (σ : Store) pre post,
       σ (registry r) = pre ++ (name, Meter ms) :: post →
       labels_match r → NoDup (σ (registry r)).*1 →
       Forall (λ e, answers_in_full e.2) (σ (registry r)) →
       ∃ r'' before after,
         Flush σ r = (Returned None, r'') ∧
         samples_sent r'' = samples_sent r ++ before ++ five ++ after) ∧
    samples_sent r' = samples_sent r ++ five.
Proof.
  intros Hc g five.
  pose proof (submit_metric_visit name (Meter ms) r I) as Hrun.
  pose proof (samples_sent_visit name (Meter ms) r Hc) as Hsent.
  exists (visit name (Meter ms) r).
  split; [done|]. split; [intros σ Hreg; by eapply flush_single|].
  split; [|exact Hsent].
  intros σ pre post Hreg Hl Hnd Hall.
  destruct (flush_block σ r pre name (Meter ms) post Hc Hl Hnd Hall Hreg)
    as (r'' & before & after & Hrun' & Hsent').
  by exists r'', before, after.
Qed.

(** The meter of [TestReporter_FlushMeter]. *)
Lemma meter_samples_witness :
  let r := Fixtures.reporter in
  let name := "foo" in
  let ms := Fixtures.meter in
  let g suffix v := statsd.GaugeSample (name +:+ suffix) v (tags r) 1 in
  let five :=
    [g ".count" (Float64.of_int64 (MeterSnapshot.Count ms));
     g ".rate1" (MeterSnapshot.Rate1 ms);
     g ".rate5" (MeterSnapshot.Rate5 ms);
     g ".rate15" (MeterSnapshot.Rate15 ms);
     g ".mean" (MeterSnapshot.RateMean ms)] in
  ∃ r',
    submit_metric name (Meter ms) r = (Returned tt, r') ∧
    (∀ σ : Store, σ (registry r) = [(name, Meter ms)] →
       Flush σ r = (Returned None, r')) ∧
    (∀ (σ : Store) pre post,
       σ (registry r) = pre ++ (name, Meter ms) :: post →
       labels_match r → NoDup (σ (registry r)).*1 →
       Forall (λ e, answers_in_full e.2) (σ (registry r)) →
       ∃ r'' before after,
         Flush σ r = (Returned None, r'') ∧
         samples_sent r'' = samples_sent r ++ before ++ five ++ after) ∧
    samples_sent r' = samples_sent r ++ five.
Proof.
  apply (meter_samples Fixtures.reporter "foo" Fixtures.meter). by eexists.
Defined.

(** C3, as stated, fails on a value that is not a whole number of
    nanoseconds: for a timer whose mean is 1.5ns the [.mean] sample is the
    conversion of 1ns, which differs from [1.5 / 1e6] also in the six
    decimals that go on the wire. *)
Lemma timer_millis_counterexample :
  let ms :=
    {| TimerSnapshot.Count := 2;
       TimerSnapshot.Max := 2;
       TimerSnapshot.Min := 1;
       TimerSnapshot.Mean := 1.5;
       TimerSnapshot.StdDev := 0.5;
       TimerSnapshot.Percentiles := fmap (λ _, 1.5%float) |} in
  ∃ r' mean_sent,
    Flush (Fixtures.store [("foo", Timer ms)]) Fixtures.reporter = (Returned None, r') ∧
    samples_sent r' !! 3%nat = Some (statsd.GaugeSample "foo.mean" mean_sent [] 1) ∧
    mean_sent = millis_of_int64 1 ∧
    mean_sent ≠ nanos_div_1e6 (TimerSnapshot.Mean ms) ∧
    Float64.format_f 6 mean_sent = "0.000001" ∧
    Float64.format_f 6 (nanos_div_1e6 (TimerSnapshot.Mean ms)) = "0.000002".
Proof.
  eexists _, _. split; [vm_compute; reflexivity|].
  split; [vm_compute; reflexivity|].
  split; [vm_compute; reflexivity|].
  split; [|split; vm_compute; reflexivity].
  intros H. apply (f_equal (Float64.format_f 6)) in H. vm_compute in H. discriminate.
Qed.

(** C3, amended.  For every timer a flush sends [.count] as the raw sample
    count, then [.max], [.min], [.mean], [.stddev] and one sample per
    configured percentile, each the snapshot's nanosecond value taken as a
    [time.Duration] (a [float64] value loses its fraction there) and
    converted as [Seconds() * 1000], that is whole seconds plus remaining
    nanoseconds over [1e9], times 1000; all are gauge-type samples and
    there is no [.var] sample. *)
Theorem timer_samples r name (ms : TimerSnapshot.t) :
  is_Some (cn r) →
  (∀ qs, length (TimerSnapshot.Percentiles ms qs) = length qs) →
  (percentiles r ≠ [] → labels_match r) →
  let g suffix v := statsd.GaugeSample (name +:+ suffix) v (tags r) 1 in
  let five :=
    [g ".count" (Float64.of_int64 (TimerSnapshot.Count ms));
     g ".max" (millis_of_int64 (TimerSnapshot.Max ms));
     g ".min" (millis_of_int64 (TimerSnapshot.Min ms));
     g ".mean" (millis_of_float64 (TimerSnapshot.Mean ms));
     g ".stddev" (millis_of_float64 (TimerSnapshot.StdDev ms))] in
  let pcts :=
    match percentiles r with
    | [] => []
    | _ :: _ =>
        zip_with (λ lbl v, g lbl (millis_of_float64 v))
          (p r) (TimerSnapshot.Percentiles ms (percentiles r))
    end in
  (∃ r',
    submit_metric name (Timer ms) r = (Returned tt, r') ∧
    (∀ σ : Store, σ (registry r) = [(name, Timer ms)] →
       Flush σ r = (Returned None, r')) ∧
    (∀ (σ : Store) pre post,
       σ (registry r) = pre ++ (name, Timer ms) :: post →
       labels_match r → NoDup (σ (registry r)).*1 →
       Forall (λ e, answers_in_full e.2) (σ (registry r)) →
       ∃ r'' before after,
         Flush σ r = (Returned None, r'') ∧
         samples_sent r'' = samples_sent r ++ before ++ (five ++ pcts) ++ after) ∧
    samples_sent r' = samples_sent r ++ five ++ pcts ∧
    length pcts = length (percentiles r)) ∧
  (∀ v, millis_of_float64 v = millis_of_int64 (Float64.to_int64 v)) ∧
  (∀ ns, millis_of_int64 ns =
     ((Float64.of_int64 (ns `quot` 1000000000)
       + Float64.of_int64 (ns `rem` 1000000000) / 1e9) * 1000)%float).
Proof.
  intros Hc Ha Hl g five pcts.
  assert (Hb : in_bounds r (Timer ms)).
  { simpl. intros Hn. rewrite Ha. unfold labels_match in Hl. rewrite Hl; [done|].
    intros Hq. rewrite Hq in Hn. simpl in Hn. lia. }
  pose proof (submit_metric_visit name _ _ Hb) as Hrun.
  pose proof (samples_sent_visit name (Timer ms) r Hc) as Hsent.
  simpl expected_samples in Hsent.
  rewrite percentile_samples_match in Hsent.
  split; [|split; reflexivity].
  exists (visit name (Timer ms) r).
  split; [done|]. split; [intros σ Hreg; by eapply flush_single|].
  split.
  { intros σ pre post Hreg Hl' Hnd Hall.
    destruct (flush_block σ r pre name (Timer ms) post Hc Hl' Hnd Hall Hreg)
      as (r'' & before & after & Hrun' & Hsent').
    simpl expected_samples in Hsent'. rewrite percentile_samples_match in Hsent'.
    by exists r'', before, after. }
  split; [exact Hsent|].
  pose proof (percentile_samples_length r name millis_of_float64 _ Hl
                (Ha (percentiles r))) as Hlen.
  by rewrite percentile_samples_match in Hlen.
Qed.

(** The timer of [TestReporter_FlushTimer] under the default percentiles. *)
Lemma timer_samples_witness :
  let r := Fixtures.reporter in
  let name := "foo" in
  let ms := Fixtures.timer in
  let g suffix v := statsd.GaugeSample (name +:+ suffix) v (tags r) 1 in
  let five :=
    [g ".count" (Float64.of_int64 (TimerSnapshot.Count ms));
     g ".max" (millis_of_int64 (TimerSnapshot.Max ms));
     g ".min" (millis_of_int64 (TimerSnapshot.Min ms));
     g ".mean" (millis_of_float64 (TimerSnapshot.Mean ms));
     g ".stddev" (millis_of_float64 (TimerSnapshot.StdDev ms))] in
  let pcts :=
    match percentiles r with
    | [] => []
    | _ :: _ =>
        zip_with (λ lbl v, g lbl (millis_of_float64 v))
          (p r) (TimerSnapshot.Percentiles ms (percentiles r))
    end in
  (∃ r',
    submit_metric name (Timer ms) r = (Returned tt, r') ∧
    (∀ σ : Store, σ (registry r) = [(name, Timer ms)] →
       Flush σ r = (Returned None, r')) ∧
    (∀ (σ : Store) pre post,
       σ (registry r) = pre ++ (name, Timer ms) :: post →
       labels_match r → NoDup (σ (registry r)).*1 →
       Forall (λ e, answers_in_full e.2) (σ (registry r)) →
       ∃ r'' before after,
         Flush σ r = (Returned None, r'') ∧
         samples_sent r'' = samples_sent r ++ before ++ (five ++ pcts) ++ after) ∧
    samples_sent r' = samples_sent r ++ five ++ pcts ∧
    length pcts = length (percentiles r)) ∧
  (∀ v, millis_of_float64 v = millis_of_int64 (Float64.to_int64 v)) ∧
  (∀ ns, millis_of_int64 ns =
     ((Float64.of_int64 (ns `quot` 1000000000)
       + Float64.of_int64 (ns `rem` 1000000000) / 1e9) * 1000)%float).
Proof.
  apply (timer_samples Fixtures.reporter "foo" Fixtures.timer).
  - by eexists.
  - intros qs. apply length_fmap.
  - intros _. reflexivity.
Defined.

(** ** The prefix option *)

Lemma substring_last_dot (v : string) :
  String.substring (String.length (v +:+ ".") - 1) 1 (v +:+ ".") = ".".
Proof.
  induction v as [|a v IH]; [done|].
  change (String a v +:+ ".") with (String a (v +:+ ".")).
  change (String.length (String a (v +:+ "."))) with (S (String.length (v +:+ "."))).
  assert (Hlen : ∃ k, String.length (v +:+ ".") = S k).
  { clear. induction v as [|b v [k Hk]]; simpl; eauto. }
  destruct Hlen as [k Hk]. rewrite Hk in *.
  replace (S (S k) - 1)%nat with (S k) by lia.
  replace (S k - 1)%nat with k in IH by lia.
  simpl. exact IH.
Qed.

Lemma length_app_dot (v : string) :
  String.length (v +:+ ".") = S (String.length v).
Proof. induction v as [|a v IH]; simpl; [done|]. by rewrite IH. Qed.

Lemma HasSuffix_app_dot (v : string) : HasSuffix (v +:+ ".") "." = true.
Proof.
  unfold HasSuffix. change (String.length ".") with 1%nat.
  rewrite substring_last_dot. rewrite length_app_dot.
  rewrite bool_decide_eq_true_2 by lia. reflexivity.
Qed.

(** C6, as stated, fails on the empty string: the option stores the
    separator alone, not the empty prefix. *)
Lemma WithPrefix_empty_counterexample :
  ∃ r', WithPrefix "" defaults = (Returned tt, r') ∧
        prefix r' = "." ∧ prefix r' ≠ "".
Proof. eexists. split; [reflexivity|]. split; [reflexivity|]. discriminate. Qed.

(** C6, amended.  For every string [v] the prefix option stores [v]
    itself when [v] ends in the separator (none is added, so it is not
    doubled) and [v] followed by one separator otherwise; the stored
    prefix always ends in the separator, also for the empty [v], which
    stores the separator alone.  Nothing else of the reporter changes. *)
Theorem WithPrefix_stores (v : string) r :
  ∃ r',
    WithPrefix v r = (Returned tt, r') ∧
    r' = set_prefix (prefix r') r ∧
    HasSuffix (prefix r') "." = true ∧
    (HasSuffix v "." = true → prefix r' = v) ∧
    (HasSuffix v "." = false → prefix r' = v +:+ ".") ∧
    (v = "" → prefix r' = ".").
Proof.
  unfold WithPrefix, modify. eexists. split; [reflexivity|]. simpl.
  destruct (HasSuffix v ".") eqn:Hs; simpl.
  - repeat split; try done. intros ->. discriminate.
  - repeat split; try done.
    + apply HasSuffix_app_dot.
    + by intros ->.
Qed.

Example WithPrefix_svc :
  prefix (WithPrefix "svc" defaults).2 = "svc." ∧
  prefix (WithPrefix "svc." defaults).2 = "svc.".
Proof. split; reflexivity. Qed.

(** ** Construction *)

Lemma exported_run opt r :
  exported opt → ∃ r', opt r = (Returned tt, r') ∧ p r' = p r.
Proof. intros []; eexists; (split; [reflexivity|done]). Qed.

Lemma options_run k (options : list configFn) r :
  Forall exported options →
  ∃ r', for_range_from k options (λ _ opt, opt) r = (Returned tt, r') ∧ p r' = p r.
Proof.
  revert k r. induction options as [|opt options IH]; intros k r Hex.
  - by exists r.
  - apply Forall_cons in Hex as [Hopt Hex].
    destruct (exported_run opt r Hopt) as (r1 & Hrun1 & Hp1).
    destruct (IH (S k) r1 Hex) as (r2 & Hrun2 & Hp2).
    exists r2. simpl. unfold bind. rewrite Hrun1. split; [done|congruence].
Qed.

(** The loop that fills the label cache, started at index [k] with the
    labels before [k] in place. *)
Lemma label_loop (qs : list float) (filled rest : list string) r :
  p r = filled ++ rest → length rest = length qs →
  for_range_from (length filled) qs (λ i pc, store_p i (Sprintf_pct (pc * 100.0))) r
  = (Returned tt, set_p (filled ++ (label_of <$> qs)) r).
Proof.
  revert filled rest r. induction qs as [|q qs IH]; intros filled rest r Hp Hlen.
  - destruct rest; [|done]. simpl. rewrite app_nil_r in *. rewrite <- Hp.
    by destruct r.
  - destruct rest as [|x rest]; [done|]. simpl in Hlen.
    simpl for_range_from. unfold bind at 1, store_p at 1.
    rewrite bind_get. rewrite bool_decide_eq_true_2
      by (rewrite Hp, length_app; simpl; lia).
    unfold modify.
    assert (Hins : <[length filled := Sprintf_pct (q * 100.0)]> (p r)
                   = (filled ++ [label_of q]) ++ rest).
    { rewrite Hp. rewrite <- (Nat.add_0_r (length filled)).
      rewrite insert_app_r. simpl. by rewrite <- app_assoc. }
    rewrite Hins.
    replace (S (length filled)) with (length (filled ++ [label_of q]))
      by (rewrite length_app; simpl; lia).
    rewrite (IH (filled ++ [label_of q]) rest); [|done|simpl in *; lia].
    rewrite <- app_assoc. reflexivity.
Qed.

Lemma labels_filled r :
  (0 < length (percentiles r))%nat →
  (modify (set_p (replicate (length (percentiles r)) "")) ;;
   for_range (percentiles r) (λ i pc, store_p i (Sprintf_pct (pc * 100.0)))) r
  = (Returned tt, set_p (label_of <$> percentiles r) r).
Proof.
  intros _. rewrite bind_modify. unfold for_range.
  rewrite (label_loop (percentiles r) [] (replicate (length (percentiles r)) "")).
  - reflexivity.
  - reflexivity.
  - apply length_replicate.
Qed.

Lemma New_constructed dial FlushLength (options : list configFn) :
  Forall exported options →
  match New dial FlushLength options with
  | Returned (inl r) => constructed r
  | Returned (inr _) => True
  | Panicked _ => False
  end.
Proof.
  intros Hex. unfold New, New_body.
  destruct (options_run 0 options defaults Hex) as (r1 & Hrun1 & Hp1).
  unfold for_range. unfold bind at 1. rewrite Hrun1. rewrite bind_get.
  assert (Hlab : ∃ r2,
    (if bool_decide (0 < length (percentiles r1))%nat then
       modify (set_p (replicate (length (percentiles r1)) "")) ;;
       for_range_from 0 (percentiles r1)
         (λ i pc, store_p i (Sprintf_pct (pc * 100.0)))
     else ret ()) r1 = (Returned tt, r2) ∧
    p r2 = label_of <$> percentiles r2 ∧ cn r2 = cn r1).
  { case_bool_decide as Hn.
    - eexists. split; [by apply labels_filled|]. done.
    - exists r1. split; [done|]. split; [|done]. rewrite Hp1. simpl.
      destruct (percentiles r1); [done|]. simpl in Hn. lia. }
  destruct Hlab as (r2 & Hrun2 & Hp2 & Hc2).
  unfold bind at 1. rewrite Hrun2. rewrite bind_get.
  destruct (cn r2) as [c|] eqn:Hc.
  - rewrite bind_ret, bind_get, Hc. simpl. split; [exact Hp2|by eexists].
  - destruct (if bool_decide (1 < FlushLength)
              then statsd.NewBuffered dial (addr r2) FlushLength
              else statsd.New dial (addr r2)) as [c|e].
    + simpl. split; [exact Hp2|by eexists].
    + simpl. done.
Qed.

Lemma exported_keeps opt r :
  exported opt →
  opt r = (Returned tt, (opt r).2) ∧
  p (opt r).2 = p r ∧ tags (opt r).2 = tags r ∧ ss (opt r).2 = ss r.
Proof. by intros []. Qed.

Lemma options_run_configured k (options : list configFn) r :
  Forall exported options →
  for_range_from k options (λ _ opt, opt) r
  = (Returned tt, foldl (λ r opt, (opt r).2) r options).
Proof.
  revert k r. induction options as [|opt options IH]; intros k r Hex; [done|].
  apply Forall_cons in Hex as [Hopt Hex]. simpl. unfold bind.
  destruct (exported_keeps opt r Hopt) as (-> & _). by apply IH.
Qed.

Lemma options_keep (options : list configFn) r :
  Forall exported options →
  p (foldl (λ r opt, (opt r).2) r options) = p r ∧
  tags (foldl (λ r opt, (opt r).2) r options) = tags r ∧
  ss (foldl (λ r opt, (opt r).2) r options) = ss r.
Proof.
  intros Hex. revert r.
  induction Hex as [|opt options Hopt _ IH]; intros r; [done|].
  simpl. destruct (exported_keeps opt r Hopt) as (_ & Hp' & Ht' & Hs').
  destruct (IH (opt r).2) as (-> & -> & ->). done.
Qed.

Lemma configured_fresh (options : list configFn) :
  Forall exported options →
  p (configured options) = [] ∧ tags (configured options) = [] ∧
  ss (configured options) = ∅.
Proof. intros Hex. unfold configured. by destruct (options_keep options defaults Hex) as (-> & -> & ->). Qed.

(** The reporter [New] returns when it ends up with the client [c]. *)
Lemma New_result dial FlushLength (options : list configFn) :
  Forall exported options →
  let c0 := configured options in
  let labelled :=
    match percentiles c0 with
    | [] => c0
    | _ :: _ => set_p (label_of <$> percentiles c0) c0
    end in
  let built c := set_cn (Some (statsd.set_Namespace (prefix c0) c)) labelled in
  New dial FlushLength options =
  match cn c0 with
  | Some c => Returned (inl (built c))
  | None =>
      match dialed dial FlushLength (addr c0) with
      | inl c => Returned (inl (built c))
      | inr e => Returned (inr e)
      end
  end.
Proof.
  intros Hex c0 labelled built. unfold New, New_body, for_range.
  unfold bind at 1. rewrite (options_run_configured 0 options defaults Hex).
  fold (configured options). fold c0. rewrite bind_get.
  assert (Hlab :
    (if bool_decide (0 < length (percentiles c0))%nat then
       modify (set_p (replicate (length (percentiles c0)) "")) ;;
       for_range_from 0 (percentiles c0)
         (λ i pc, store_p i (Sprintf_pct (pc * 100.0)))
     else ret ()) c0 = (Returned tt, labelled)).
  { subst labelled. case_bool_decide as Hn.
    - etrans; [exact (labels_filled c0 Hn)|].
      destruct (percentiles c0); [simpl in Hn; lia|done].
    - destruct (percentiles c0); [done|]. simpl in Hn. lia. }
  unfold bind at 1. rewrite Hlab. rewrite bind_get.
  assert (Hcn : cn labelled = cn c0) by (subst labelled; by destruct (percentiles c0)).
  assert (Hpre : prefix labelled = prefix c0) by (subst labelled; by destruct (percentiles c0)).
  assert (Haddr : addr labelled = addr c0) by (subst labelled; by destruct (percentiles c0)).
  rewrite Hcn. destruct (cn c0) as [c|] eqn:Hc.
  - rewrite bind_ret, bind_get, Hcn. simpl. by rewrite Hpre.
  - unfold dialed. rewrite Haddr.
    destruct (if bool_decide (1 < FlushLength)
              then statsd.NewBuffered dial (addr c0) FlushLength
              else statsd.New dial (addr c0)) as [c|e]; simpl; [|done].
    by rewrite Hpre.
Qed.

Lemma New_built dial FlushLength (options : list configFn) r :
  Forall exported options →
  New dial FlushLength options = Returned (inl r) →
  addr r = addr (configured options) ∧ prefix r = prefix (configured options) ∧
  registry r = registry (configured options) ∧
  percentiles r = percentiles (configured options) ∧
  tags r = [] ∧ ss r = ∅ ∧
  ∃ c, cn r = Some (statsd.set_Namespace (prefix r) c) ∧
       (cn (configured options) = Some c ∨
        cn (configured options) = None ∧
        dialed dial FlushLength (addr r) = inl c).
Proof.
  intros Hex Hnew. rewrite (New_result dial FlushLength options Hex) in Hnew.
  destruct (configured_fresh options Hex) as (Hp & Ht & Hs).
  cbv zeta in Hnew.
  set (c0 := configured options) in *.
  set (labelled := match percentiles c0 with
                   | [] => c0
                   | _ :: _ => set_p (label_of <$> percentiles c0) c0
                   end) in *.
  assert (Hf : addr labelled = addr c0 ∧ prefix labelled = prefix c0 ∧
               registry labelled = registry c0 ∧ percentiles labelled = percentiles c0 ∧
               tags labelled = tags c0 ∧ ss labelled = ss c0)
    by (subst labelled; by destruct (percentiles c0) eqn:E).
  destruct Hf as (Ha & Hb & Hc & Hd & He & Hg).
  destruct (cn c0) as [c|] eqn:Hcn.
  - injection Hnew as <-. simpl. rewrite Ha, Hb, Hc, Hd, He, Hg.
    repeat split; try done. exists c. split; [done|by left].
  - destruct (dialed dial FlushLength (addr c0)) as [c|e] eqn:Hdial; [|done].
    injection Hnew as <-. simpl. rewrite Ha, Hb, Hc, Hd, He, Hg.
    repeat split; try done. exists c. split; [done|by right].
Qed.

(** C7. [New] returns a reporter whenever a client was given or the dialer
    answers with one, and in that reporter the percentiles are the
    configured ones, the label cache has the length of the percentile list
    and its label at each index is [".pct-"] followed by the fraction at
    that index times 100 with two decimals (0.95 gives [".pct-95.00"]);
    with an empty percentile list the cache is empty; and so the
    percentile loops of [submit] index within the snapshot's percentile
    values. *)
Theorem New_label_cache dial FlushLength (options : list configFn) c :
  Forall exported options →
  cn (configured options) = Some c ∨
  cn (configured options) = None ∧
  dialed dial FlushLength (addr (configured options)) = inl c →
  (∃ r,
     New dial FlushLength options = Returned (inl r) ∧
     percentiles r = percentiles (configured options) ∧
     length (p r) = length (percentiles r) ∧
     (∀ i q, percentiles r !! i = Some q →
        p r !! i = Some (".pct-" +:+ Float64.format_f 2 (q * 100.0)%float)) ∧
     (percentiles r = [] → p r = []) ∧
     (∀ name ms, answers_in_full (Histogram ms) →
        ∃ r', submit_metric name (Histogram ms) r = (Returned tt, r')) ∧
     (∀ name ms, answers_in_full (Timer ms) →
        ∃ r', submit_metric name (Timer ms) r = (Returned tt, r'))) ∧
  label_of 0.95 = ".pct-95.00".
Proof.
  intros Hex Hclient. split; [|by vm_compute].
  assert (Hnew : ∃ r, New dial FlushLength options = Returned (inl r)).
  { rewrite (New_result dial FlushLength options Hex). cbv zeta.
    destruct Hclient as [->|[-> ->]]; by eexists. }
  destruct Hnew as [r Hnew]. exists r. split; [done|].
  pose proof (New_constructed dial FlushLength options Hex) as Hc.
  rewrite Hnew in Hc. destruct Hc as [Hp Hc].
  destruct (New_built _ _ _ _ Hex Hnew) as (_ & _ & _ & Hq & _).
  assert (Hl : labels_match r) by (unfold labels_match; by rewrite Hp, length_fmap).
  split; [done|]. split; [exact Hl|]. split.
  { intros i q Hi. by rewrite Hp, list_lookup_fmap, Hi. }
  split.
  { intros Hnil. by rewrite Hp, Hnil. }
  split; intros name ms Ha; eexists; apply submit_metric_visit;
    by apply in_bounds_intro.
Qed.

(** [New(WithAddress(addr), WithRegistry(r), WithPercentiles(...))] on a
    dialer that answers with a client: the reporter is there, with the
    labels of its two percentiles. *)
Lemma New_label_cache_witness :
  let options := [WithAddress "127.0.0.1:9999"; WithRegistry Fixtures.reg;
                  WithPercentiles [0.5%float; 0.95%float]] in
  ((∃ r,
      New Fixtures.dial 1 options = Returned (inl r) ∧
      percentiles r = percentiles (configured options) ∧
      length (p r) = length (percentiles r) ∧
      (∀ i q, percentiles r !! i = Some q →
         p r !! i = Some (".pct-" +:+ Float64.format_f 2 (q * 100.0)%float)) ∧
      (percentiles r = [] → p r = []) ∧
      (∀ name ms, answers_in_full (Histogram ms) →
         ∃ r', submit_metric name (Histogram ms) r = (Returned tt, r')) ∧
      (∀ name ms, answers_in_full (Timer ms) →
         ∃ r', submit_metric name (Timer ms) r = (Returned tt, r'))) ∧
   label_of 0.95 = ".pct-95.00") ∧
  ∃ r, New Fixtures.dial 1 options = Returned (inl r) ∧
       percentiles r = [0.5%float; 0.95%float] ∧
       p r = [".pct-50.00"; ".pct-95.00"].
Proof.
  split.
  - apply (New_label_cache Fixtures.dial 1
             [WithAddress "127.0.0.1:9999"; WithRegistry Fixtures.reg;
              WithPercentiles [0.5%float; 0.95%float]] Fixtures.client).
    + repeat constructor.
    + right. split; reflexivity.
  - eexists. split; [vm_compute; reflexivity|]. split; reflexivity.
Defined.

(** A reporter that [New] built is fit to flush, and stays so. *)
Lemma constructed_fit r : constructed r → is_Some (cn r) ∧ labels_match r.
Proof.
  intros [Hp Hc]. split; [done|]. unfold labels_match. by rewrite Hp, length_fmap.
Qed.

Lemma flush_keeps_fit (σ : Store) r :
  is_Some (cn r) → labels_match r →
  NoDup (σ (registry r)).*1 → Forall (λ e, answers_in_full e.2) (σ (registry r)) →
  is_Some (cn (Flush σ r).2) ∧ labels_match (Flush σ r).2.
Proof.
  intros Hc Hl Hnd Ha.
  destruct (flush_table σ r Hc Hl Hnd Ha) as (r' & Hrun & _ & _ & Hu & Hc').
  rewrite Hrun. simpl. split; [done|].
  destruct Hu as (_ & _ & _ & _ & Hq & Hp & _).
  unfold labels_match. by rewrite Hp, Hq.
Qed.

(** ** The tests of the repository, replayed *)

(** [int64(f)] drops the fraction, towards zero. *)
Example to_int64_truncates :
  Float64.to_int64 1.9 = 1 ∧ Float64.to_int64 (-1.9) = -1 ∧
  Float64.to_int64 1900000.75 = 1900000 ∧ Float64.to_int64 0.5 = 0.
Proof. by vm_compute. Qed.

(** [%.2f] and [%f] round the exact binary value, ties to even. *)
Example format_f_rounds :
  Float64.format_f 2 0.125 = "0.12" ∧ Float64.format_f 2 0.375 = "0.38" ∧
  Float64.format_f 2 99.9 = "99.90" ∧ Float64.format_f 6 55.55 = "55.550000" ∧
  Float64.format_f 2 (-0.001) = "-0.00".
Proof. by vm_compute. Qed.

Example TestNew_WithDefaultOptions :
  ∃ r, New Fixtures.dial 32 [] = Returned (inl r) ∧
       addr r = "127.0.0.1:8125" ∧ registry r = DefaultRegistry ∧
       p r = [".pct-50.00"; ".pct-75.00"; ".pct-95.00"; ".pct-99.00"; ".pct-99.90"].
Proof. eexists. split; [vm_compute; reflexivity|]. by vm_compute. Qed.

Example TestNew_dial_fails :
  New Fixtures.dial_down 32 [WithPrefix "svc"] = Returned (inr "dial udp: lookup failed").
Proof. by vm_compute. Qed.

Example TestNew_no_percentiles :
  ∃ r, New Fixtures.dial 1 [WithPercentiles []] = Returned (inl r) ∧ p r = [].
Proof. eexists. split; [vm_compute; reflexivity|]. done. Qed.

Example TestReporter_FlushGauge :
  samples_sent (Flush (Fixtures.store [("foo", Gauge 100)]) Fixtures.reporter).2
  = [statsd.GaugeSample "foo" 100 [] 1].
Proof. by vm_compute. Qed.

Example TestReporter_FlushHistogram :
  samples_sent
    (Flush (Fixtures.store [("foo", Histogram Fixtures.histogram)]) Fixtures.reporter).2
  = [statsd.GaugeSample "foo.count" 2 [] 1;
     statsd.GaugeSample "foo.max" 11 [] 1;
     statsd.GaugeSample "foo.min" 1 [] 1;
     statsd.GaugeSample "foo.mean" 6 [] 1;
     statsd.GaugeSample "foo.stddev" 5 [] 1;
     statsd.GaugeSample "foo.var" 25 [] 1;
     statsd.GaugeSample "foo.pct-50.00" 6 [] 1;
     statsd.GaugeSample "foo.pct-75.00" 11 [] 1;
     statsd.GaugeSample "foo.pct-95.00" 11 [] 1;
     statsd.GaugeSample "foo.pct-99.00" 11 [] 1;
     statsd.GaugeSample "foo.pct-99.90" 11 [] 1].
Proof. by vm_compute. Qed.

(** The values of [TestReporter_FlushTimer] as they read on the wire, with
    six decimals. *)
Example TestReporter_FlushTimer :
  (λ s, match s with
        | statsd.GaugeSample n v _ _ => n +:+ ":" +:+ Float64.format_f 6 v +:+ "|g"
        | statsd.CountSample n v _ _ => n +:+ ":" +:+ pretty v +:+ "|c"
        end) <$>
  samples_sent (Flush (Fixtures.store [("foo", Timer Fixtures.timer)]) Fixtures.reporter).2
  = ["foo.count:10.000000|g"; "foo.max:10.000000|g"; "foo.min:1.000000|g";
     "foo.mean:1.900000|g"; "foo.stddev:2.700000|g";
     "foo.pct-50.00:1.000000|g"; "foo.pct-75.00:1.000000|g";
     "foo.pct-95.00:10.000000|g"; "foo.pct-99.00:10.000000|g";
     "foo.pct-99.90:10.000000|g"].
Proof. by vm_compute. Qed.

(** A reporter whose label cache is longer than its percentile list, which
    [New] never builds, panics in the percentile loop. *)
Example label_cache_too_long_panics :
  ∃ r', submit_metric "foo" (Histogram Fixtures.histogram)
          (set_p [".pct-50.00"; ".pct-75.00"] (set_percentiles [0.5%float] Fixtures.reporter))
        = (Panicked "index out of range", r').
Proof. eexists. vm_compute. reflexivity. Qed.

(** * Further properties of the code *)

(** ** New *)

(** X1. A client given through [WithClient] is the one [New] keeps: the
    dialer is not consulted, so [New] succeeds whatever the dialer would
    answer, and the client keeps what it holds except for its namespace,
    which becomes the configured prefix. *)
Theorem New_keeps_injected_client dial FlushLength (options : list configFn) c :
  Forall exported options →
  cn (configured options) = Some c →
  ∃ r, New dial FlushLength options = Returned (inl r) ∧
       prefix r = prefix (configured options) ∧
       cn r = Some {| statsd.Namespace := prefix r;
                      statsd.faults := statsd.faults c;
                      statsd.sent := statsd.sent c |}.
Proof.
  intros Hex Hcn. rewrite (New_result dial FlushLength options Hex). cbv zeta.
  rewrite Hcn. eexists. split; [reflexivity|].
  destruct (percentiles (configured options)); done.
Qed.

Lemma New_keeps_injected_client_witness :
  ∃ r, New Fixtures.dial_down 32
         [WithClient (Some (Fixtures.flaky 2)); WithPrefix "svc"]
       = Returned (inl r) ∧
       prefix r = prefix (configured [WithClient (Some (Fixtures.flaky 2)); WithPrefix "svc"]) ∧
       cn r = Some {| statsd.Namespace := prefix r;
                      statsd.faults := statsd.faults (Fixtures.flaky 2);
                      statsd.sent := statsd.sent (Fixtures.flaky 2) |}.
Proof.
  apply (New_keeps_injected_client Fixtures.dial_down 32
           [WithClient (Some (Fixtures.flaky 2)); WithPrefix "svc"] (Fixtures.flaky 2)).
  - repeat constructor.
  - reflexivity.
Defined.

(** X2. With no client given, [New] dials the configured address, through
    [statsd.NewBuffered] with the flush length when that exceeds 1 and
    through [statsd.New] otherwise; an error of the dialer is returned as
    it is, with no reporter, and a client it returns is kept with the
    prefix as its namespace. *)
Theorem New_dials_without_client dial FlushLength (options : list configFn) :
  Forall exported options →
  cn (configured options) = None →
  let a := addr (configured options) in
  let answer :=
    if bool_decide (1 < FlushLength)
    then statsd.NewBuffered dial a FlushLength
    else statsd.New dial a in
  (∀ e, answer = inr e → New dial FlushLength options = Returned (inr e)) ∧
  (∀ c, answer = inl c →
     ∃ r, New dial FlushLength options = Returned (inl r) ∧
          addr r = a ∧ cn r = Some (statsd.set_Namespace (prefix r) c)).
Proof.
  intros Hex Hcn a answer.
  rewrite (New_result dial FlushLength options Hex). cbv zeta. rewrite Hcn.
  unfold dialed. fold a. fold answer. split.
  - intros e ->. done.
  - intros c ->. eexists. split; [reflexivity|].
    subst a. destruct (percentiles (configured options)); done.
Qed.

Lemma New_dials_without_client_witness :
  let options := [WithAddress "127.0.0.1:9999"; WithPrefix "svc"] in
  let a := addr (configured options) in
  let answer :=
    if bool_decide (1 < 32)
    then statsd.NewBuffered Fixtures.dial_down a 32
    else statsd.New Fixtures.dial_down a in
  (∀ e, answer = inr e → New Fixtures.dial_down 32 options = Returned (inr e)) ∧
  (∀ c, answer = inl c →
     ∃ r, New Fixtures.dial_down 32 options = Returned (inl r) ∧
          addr r = a ∧ cn r = Some (statsd.set_Namespace (prefix r) c)).
Proof.
  apply (New_dials_without_client Fixtures.dial_down 32
           [WithAddress "127.0.0.1:9999"; WithPrefix "svc"]).
  - repeat constructor.
  - reflexivity.
Defined.

(** X3. [New] applies the options in the order given, over the defaults:
    the address, prefix, registry and percentiles of the reporter are those
    reached by applying the options one after the other to the defaults,
    the labels are made from the percentiles so reached and the client's
    namespace is the prefix so reached; tags and baselines start empty.
    In particular the option given last decides its field. *)
Theorem New_applies_options_in_order dial FlushLength (options : list configFn) r :
  Forall exported options →
  New dial FlushLength options = Returned (inl r) →
  let c0 := foldl (λ r0 opt, (opt r0).2) defaults options in
  (addr r = addr c0 ∧ prefix r = prefix c0 ∧ registry r = registry c0 ∧
   percentiles r = percentiles c0 ∧ p r = label_of <$> percentiles c0 ∧
   statsd.Namespace <$> cn r = Some (prefix c0) ∧
   tags r = [] ∧ ss r = ∅) ∧
  (∀ opts o, options = opts ++ [o] →
     (∀ v, o = WithAddress v → addr r = v) ∧
     (∀ v, o = WithRegistry v → registry r = v) ∧
     (∀ v, o = WithPercentiles v → percentiles r = v ∧ p r = label_of <$> v) ∧
     (∀ v, o = WithPrefix v →
        prefix r = (if HasSuffix v "." then v else v +:+ ".") ∧
        statsd.Namespace <$> cn r = Some (prefix r))).
Proof.
  intros Hex Hnew c0.
  destruct (New_built _ _ _ _ Hex Hnew)
    as (Ha & Hpre & Hreg & Hq & Ht & Hs & c & Hc & _).
  pose proof (New_constructed dial FlushLength options Hex) as Hcon.
  rewrite Hnew in Hcon. destruct Hcon as [Hp _].
  fold (configured options) in c0. subst c0.
  assert (Hfields :
    addr r = addr (configured options) ∧ prefix r = prefix (configured options) ∧
    registry r = registry (configured options) ∧
    percentiles r = percentiles (configured options) ∧
    p r = label_of <$> percentiles (configured options) ∧
    statsd.Namespace <$> cn r = Some (prefix (configured options)) ∧
    tags r = [] ∧ ss r = ∅).
  { repeat split; try done.
    - by rewrite Hp, Hq.
    - by rewrite Hc, <- Hpre. }
  split; [exact Hfields|].
  destruct Hfields as (Ha' & Hpre' & Hreg' & Hq' & Hp' & Hns' & _).
  intros opts o ->.
  assert (Hlast : configured (opts ++ [o]) = (o (configured opts)).2).
  { unfold configured. by rewrite foldl_app. }
  rewrite Hlast in *.
  split; [|split; [|split]]; intros v ->.
  - by rewrite Ha'.
  - by rewrite Hreg'.
  - by rewrite Hp', Hq'.
  - split; [|by rewrite Hns', Hpre'].
    rewrite Hpre'. unfold WithPrefix, modify. simpl. by destruct (HasSuffix v ".").
Qed.

(** Five options, of which the two prefixes are in conflict: the address,
    the percentiles and the registry given earlier are kept, the later
    prefix decides. *)
Lemma New_applies_options_in_order_witness :
  let options := [WithAddress "10.0.0.1:8125"; WithPrefix "a";
                  WithPercentiles [0.5%float]; WithRegistry Fixtures.reg;
                  WithPrefix "svc"] in
  let r := match New Fixtures.dial 1 options with
           | Returned (inl r) => r
           | _ => defaults
           end in
  let c0 := foldl (λ r0 opt, (opt r0).2) defaults options in
  ((addr r = addr c0 ∧ prefix r = prefix c0 ∧ registry r = registry c0 ∧
    percentiles r = percentiles c0 ∧ p r = label_of <$> percentiles c0 ∧
    statsd.Namespace <$> cn r = Some (prefix c0) ∧
    tags r = [] ∧ ss r = ∅) ∧
   (∀ opts o, options = opts ++ [o] →
      (∀ v, o = WithAddress v → addr r = v) ∧
      (∀ v, o = WithRegistry v → registry r = v) ∧
      (∀ v, o = WithPercentiles v → percentiles r = v ∧ p r = label_of <$> v) ∧
      (∀ v, o = WithPrefix v →
         prefix r = (if HasSuffix v "." then v else v +:+ ".") ∧
         statsd.Namespace <$> cn r = Some (prefix r)))) ∧
  New Fixtures.dial 1 options = Returned (inl r) ∧
  addr r = "10.0.0.1:8125" ∧ prefix r = "svc." ∧ registry r = Fixtures.reg ∧
  percentiles r = [0.5%float] ∧ p r = [".pct-50.00"] ∧
  statsd.Namespace <$> cn r = Some "svc.".
Proof.
  split.
  - apply (New_applies_options_in_order Fixtures.dial 1
             [WithAddress "10.0.0.1:8125"; WithPrefix "a";
              WithPercentiles [0.5%float]; WithRegistry Fixtures.reg;
              WithPrefix "svc"]).
    + repeat constructor.
    + vm_compute. reflexivity.
  - split; [vm_compute; reflexivity|]. by vm_compute.
Defined.

Example New_options_in_order :
  ∃ r, New Fixtures.dial 1
         [WithAddress "10.0.0.1:8125"; WithPrefix "a"; WithPercentiles [];
          WithAddress "127.0.0.1:9999"; WithPercentiles [0.5%float]; WithPrefix "svc"]
       = Returned (inl r) ∧
       addr r = "127.0.0.1:9999" ∧ prefix r = "svc." ∧ p r = [".pct-50.00"] ∧
       statsd.Namespace <$> cn r = Some "svc.".
Proof. eexists. split; [vm_compute; reflexivity|]. by vm_compute. Qed.

(** X4. A reporter from [New] starts with an empty baseline table and no
    tags, so its first flush sends, for every counter of the registry, one
    untagged count-type sample carrying the full cumulative count, and
    records that count as the baseline. *)
Theorem first_flush_after_New dial FlushLength (options : list configFn)
    r (σ : Store) name v :
  Forall exported options →
  New dial FlushLength options = Returned (inl r) →
  NoDup (σ (registry r)).*1 →
  Forall (λ e, answers_in_full e.2) (σ (registry r)) →
  (name, Counter v) ∈ σ (registry r) →
  Int64.in_range v →
  ss r = ∅ ∧ tags r = [] ∧
  ∃ r' out,
    Flush σ r = (Returned None, r') ∧
    samples_sent r' = samples_sent r ++ out ∧
    filter (λ s, is_count_of name s) out = [statsd.CountSample name v [] 1] ∧
    ss r' !! name = Some v.
Proof.
  intros Hex Hnew Hnd Ha Hin Hv.
  destruct (New_built _ _ _ _ Hex Hnew) as (_ & _ & _ & _ & Ht & Hs & _).
  pose proof (New_constructed dial FlushLength options Hex) as Hc.
  rewrite Hnew in Hc. destruct (constructed_fit r Hc) as [Hcn Hl].
  split; [done|]. split; [done|].
  destruct (flush_table σ r Hcn Hl Hnd Ha) as (r' & Hrun & Hsent & Hss & _).
  exists r', (flat_map (λ e, expected_samples r e.1 e.2) (σ (registry r))).
  split; [done|]. split; [done|]. split.
  - rewrite (filter_count_flush r name v) by done.
    unfold count. rewrite Hs, Ht, lookup_empty. simpl. by rewrite sub_zero.
  - rewrite Hss. by apply baselines_counter.
Qed.

Lemma first_flush_after_New_witness :
  let r := Fixtures.reporter in
  let σ := Fixtures.store Fixtures.all_kinds in
  ss r = ∅ ∧ tags r = [] ∧
  ∃ r' out,
    Flush σ r = (Returned None, r') ∧
    samples_sent r' = samples_sent r ++ out ∧
    filter (λ s, is_count_of "c" s) out = [statsd.CountSample "c" 7 [] 1] ∧
    ss r' !! "c" = Some 7.
Proof.
  apply (first_flush_after_New Fixtures.dial 1 [WithRegistry Fixtures.reg]
           Fixtures.reporter (Fixtures.store Fixtures.all_kinds) "c" 7).
  - repeat constructor.
  - vm_compute. reflexivity.
  - apply (bool_decide_unpack _). by vm_compute.
  - repeat constructor; simpl; intros qs; apply length_fmap.
  - apply list_elem_of_here.
  - by vm_compute.
Defined.

(** ** The prefix option, again *)

(** X5. The prefix option is idempotent: giving the stored prefix to the
    option again stores the same prefix and leaves the reporter as it
    is. *)
Theorem WithPrefix_idempotent (v : string) r :
  let r1 := (WithPrefix v r).2 in
  WithPrefix (prefix r1) r1 = (Returned tt, r1).
Proof.
  simpl. unfold WithPrefix, modify. simpl.
  assert (Hs : HasSuffix (if negb (HasSuffix v ".") then v +:+ "." else v) "." = true).
  { destruct (HasSuffix v ".") eqn:Hv; simpl; [done|apply HasSuffix_app_dot]. }
  rewrite Hs. simpl. f_equal.
Qed.

(** ** Gauges and the kinds the switch does not know *)

(** X6. For an integer gauge and for a floating gauge a flush sends one
    gauge-type sample under the metric's own name, without suffix, valued
    by the gauge's value (the integer widened to [float64]); the baseline
    table is not touched. *)
Theorem gauge_samples r name (v : Z) (x : float) :
  is_Some (cn r) →
  (∃ r',
     submit_metric name (Gauge v) r = (Returned tt, r') ∧
     samples_sent r' = samples_sent r ++
       [statsd.GaugeSample name (Float64.of_int64 v) (tags r) 1] ∧
     ss r' = ss r ∧
     (∀ (σ : Store) pre post,
        σ (registry r) = pre ++ (name, Gauge v) :: post →
        labels_match r → NoDup (σ (registry r)).*1 →
        Forall (λ e, answers_in_full e.2) (σ (registry r)) →
        ∃ r'' before after,
          Flush σ r = (Returned None, r'') ∧
          samples_sent r'' = samples_sent r ++ before ++
            [statsd.GaugeSample name (Float64.of_int64 v) (tags r) 1] ++ after)) ∧
  (∃ r',
     submit_metric name (GaugeFloat64 x) r = (Returned tt, r') ∧
     samples_sent r' = samples_sent r ++ [statsd.GaugeSample name x (tags r) 1] ∧
     ss r' = ss r ∧
     (∀ (σ : Store) pre post,
        σ (registry r) = pre ++ (name, GaugeFloat64 x) :: post →
        labels_match r → NoDup (σ (registry r)).*1 →
        Forall (λ e, answers_in_full e.2) (σ (registry r)) →
        ∃ r'' before after,
          Flush σ r = (Returned None, r'') ∧
          samples_sent r'' = samples_sent r ++ before ++
            [statsd.GaugeSample name x (tags r) 1] ++ after)).
Proof.
  intros Hc. split.
  - exists (visit name (Gauge v) r).
    split; [by apply submit_metric_visit|].
    split; [by apply samples_sent_visit|].
    split; [by destruct (visit_fields name (Gauge v) r) as (_ & _ & _ & _ & _ & _ & ->)|].
    intros σ pre post Hreg Hl Hnd Hall.
    destruct (flush_block σ r pre name (Gauge v) post Hc Hl Hnd Hall Hreg)
      as (r'' & before & after & Hrun & Hsent).
    by exists r'', before, after.
  - exists (visit name (GaugeFloat64 x) r).
    split; [by apply submit_metric_visit|].
    split; [by apply samples_sent_visit|].
    split; [by destruct (visit_fields name (GaugeFloat64 x) r)
                 as (_ & _ & _ & _ & _ & _ & ->)|].
    intros σ pre post Hreg Hl Hnd Hall.
    destruct (flush_block σ r pre name (GaugeFloat64 x) post Hc Hl Hnd Hall Hreg)
      as (r'' & before & after & Hrun & Hsent).
    by exists r'', before, after.
Qed.

(** The gauges of [TestReporter_FlushGauge] and
    [TestReporter_FlushGaugeFloat64]. *)
Lemma gauge_samples_witness :
  let r := Fixtures.reporter in
  let name := "foo" in
  let v := 100 in
  let x := 55.55%float in
  (∃ r',
     submit_metric name (Gauge v) r = (Returned tt, r') ∧
     samples_sent r' = samples_sent r ++
       [statsd.GaugeSample name (Float64.of_int64 v) (tags r) 1] ∧
     ss r' = ss r ∧
     (∀ (σ : Store) pre post,
        σ (registry r) = pre ++ (name, Gauge v) :: post →
        labels_match r → NoDup (σ (registry r)).*1 →
        Forall (λ e, answers_in_full e.2) (σ (registry r)) →
        ∃ r'' before after,
          Flush σ r = (Returned None, r'') ∧
          samples_sent r'' = samples_sent r ++ before ++
            [statsd.GaugeSample name (Float64.of_int64 v) (tags r) 1] ++ after)) ∧
  (∃ r',
     submit_metric name (GaugeFloat64 x) r = (Returned tt, r') ∧
     samples_sent r' = samples_sent r ++ [statsd.GaugeSample name x (tags r) 1] ∧
     ss r' = ss r ∧
     (∀ (σ : Store) pre post,
        σ (registry r) = pre ++ (name, GaugeFloat64 x) :: post →
        labels_match r → NoDup (σ (registry r)).*1 →
        Forall (λ e, answers_in_full e.2) (σ (registry r)) →
        ∃ r'' before after,
          Flush σ r = (Returned None, r'') ∧
          samples_sent r'' = samples_sent r ++ before ++
            [statsd.GaugeSample name x (tags r) 1] ++ after)).
Proof.
  apply (gauge_samples Fixtures.reporter "foo" 100 55.55%float). by eexists.
Defined.

(** A loop whose body does not look at the index runs the same from any
    start index, and skips the elements on which the body does nothing. *)
Lemma for_range_from_filter {A} (keep : A → bool) k k' (l : list A) (f : A → Go unit) r :
  (∀ x r, keep x = false → f x r = (Returned tt, r)) →
  for_range_from k (filter (λ x, keep x) l) (λ _ x, f x) r
  = for_range_from k' l (λ _ x, f x) r.
Proof.
  intros Hskip. revert k k' r. induction l as [|x l IH]; intros k k' r; [done|].
  destruct (keep x) eqn:Hx.
  - rewrite filter_cons_True by by rewrite Hx.
    simpl. unfold bind. destruct (f x r) as [[[]|msg] r1]; [apply IH|done].
  - rewrite filter_cons_False by (rewrite Hx; simpl; tauto).
    simpl. unfold bind. rewrite (Hskip x r Hx). apply IH.
Qed.

(** X7. A registered metric of a kind the type switch has no case for (a
    healthcheck) is passed over: a flush behaves exactly as on the registry
    without such entries, in what it returns, sends and stores, also when
    it panics. *)
Theorem unmatched_kinds_skipped (σ σ' : Store) r :
  σ' (registry r) = filter (λ e, negb (is_healthcheck e.2)) (σ (registry r)) →
  Flush σ' r = Flush σ r.
Proof.
  intros Hreg. unfold Flush, submit. rewrite !bind_get, Hreg.
  unfold Each, for_range, bind.
  rewrite (for_range_from_filter (λ e, negb (is_healthcheck e.2)) 0 0
             (σ (registry r)) (λ e, submit_metric e.1 e.2)); [done|].
  intros [name i] r0 Hk. destruct i; simpl in Hk; try done.
Qed.

Lemma unmatched_kinds_skipped_witness :
  Flush (Fixtures.store
           [("c", Counter 7); ("g", Gauge 100); ("f", GaugeFloat64 55.55);
            ("h", Histogram Fixtures.histogram); ("m", Meter Fixtures.meter);
            ("t", Timer Fixtures.timer)]) Fixtures.reporter
  = Flush (Fixtures.store Fixtures.all_kinds) Fixtures.reporter.
Proof.
  apply (unmatched_kinds_skipped (Fixtures.store Fixtures.all_kinds)).
  reflexivity.
Defined.

(** ** The samples of a flush *)

Lemma expected_samples_tagged r name i :
  Forall (λ s, sample_tags s = tags r ∧ sample_rate s = 1%float)
    (expected_samples r name i).
Proof.
  assert (Hz : ∀ conv (lbls : list string) (values : list float),
    Forall (λ s, sample_tags s = tags r ∧ sample_rate s = 1%float)
      (zip_with (λ lbl v, gauge r (name +:+ lbl) (conv v)) lbls values)).
  { intros conv lbls. induction lbls as [|lbl lbls IH]; intros [|v values]; simpl;
      try apply Forall_nil_2. apply Forall_cons_2; [done|apply IH]. }
  destruct i; simpl; unfold percentile_samples;
    repeat first [ apply Forall_nil_2
                 | apply Forall_cons_2; [done|]
                 | case_bool_decide
                 | apply Hz ].
Qed.

Lemma expected_samples_length r name i :
  labels_match r → answers_in_full i →
  length (expected_samples r name i) = samples_of_kind (length (percentiles r)) i.
Proof.
  intros Hl Ha. destruct i; simpl; try done.
  - by rewrite percentile_samples_length.
  - by rewrite percentile_samples_length.
Qed.

Lemma flat_map_tagged r (reg : Registry) :
  Forall (λ s, sample_tags s = tags r ∧ sample_rate s = 1%float)
    (flat_map (λ e, expected_samples r e.1 e.2) reg).
Proof.
  induction reg as [|[name i] reg IH]; simpl; [done|].
  apply Forall_app. split; [apply expected_samples_tagged|apply IH].
Qed.

(** X8. Every sample a flush sends carries the reporter's tag list and the
    sample rate 1. *)
Theorem flush_samples_tagged (σ : Store) r :
  is_Some (cn r) → labels_match r →
  NoDup (σ (registry r)).*1 → Forall (λ e, answers_in_full e.2) (σ (registry r)) →
  ∃ r' out,
    Flush σ r = (Returned None, r') ∧
    samples_sent r' = samples_sent r ++ out ∧
    Forall (λ s, sample_tags s = tags r ∧ sample_rate s = 1%float) out.
Proof.
  intros Hc Hl Hnd Ha.
  destruct (flush_table σ r Hc Hl Hnd Ha) as (r' & Hrun & Hsent & _).
  exists r', (flat_map (λ e, expected_samples r e.1 e.2) (σ (registry r))).
  split; [done|]. split; [done|]. apply flat_map_tagged.
Qed.

Lemma flush_samples_tagged_witness :
  let σ := Fixtures.store Fixtures.all_kinds in
  let r := Fixtures.reporter in
  ∃ r' out,
    Flush σ r = (Returned None, r') ∧
    samples_sent r' = samples_sent r ++ out ∧
    Forall (λ s, sample_tags s = tags r ∧ sample_rate s = 1%float) out.
Proof.
  apply (flush_samples_tagged (Fixtures.store Fixtures.all_kinds) Fixtures.reporter).
  - by eexists.
  - reflexivity.
  - apply (bool_decide_unpack _). by vm_compute.
  - repeat constructor; simpl; intros qs; apply length_fmap.
Defined.

(** X9. The number of samples of a flush is the sum over the registry of 1
    for a counter or a gauge, 6 plus the number of percentiles for a
    histogram, 5 for a meter, 5 plus the number of percentiles for a
    timer, and 0 for any other kind. *)
Theorem flush_sample_count (σ : Store) r :
  is_Some (cn r) → labels_match r →
  NoDup (σ (registry r)).*1 → Forall (λ e, answers_in_full e.2) (σ (registry r)) →
  ∃ r' out,
    Flush σ r = (Returned None, r') ∧
    samples_sent r' = samples_sent r ++ out ∧
    length out
    = sum_list ((λ e, samples_of_kind (length (percentiles r)) e.2) <$> σ (registry r)).
Proof.
  intros Hc Hl Hnd Ha.
  destruct (flush_table σ r Hc Hl Hnd Ha) as (r' & Hrun & Hsent & _).
  exists r', (flat_map (λ e, expected_samples r e.1 e.2) (σ (registry r))).
  split; [done|]. split; [done|]. clear Hrun Hsent Hnd.
  induction Ha as [|[name i] reg Hi _ IH]; [done|].
  simpl. rewrite length_app, IH. by rewrite expected_samples_length.
Qed.

Lemma flush_sample_count_witness :
  let σ := Fixtures.store Fixtures.all_kinds in
  let r := Fixtures.reporter in
  ∃ r' out,
    Flush σ r = (Returned None, r') ∧
    samples_sent r' = samples_sent r ++ out ∧
    length out
    = sum_list ((λ e, samples_of_kind (length (percentiles r)) e.2) <$> σ (registry r)).
Proof.
  apply (flush_sample_count (Fixtures.store Fixtures.all_kinds) Fixtures.reporter).
  - by eexists.
  - reflexivity.
  - apply (bool_decide_unpack _). by vm_compute.
  - repeat constructor; simpl; intros qs; apply length_fmap.
Defined.

(** X10. What the transport answers to the writes has no influence on a
    flush: with any other sequence of write errors the flush returns nil
    all the same, hands the same samples to the client and leaves the same
    baseline table. *)
Theorem transport_errors_ignored (σ : Store) r (fs : list (option error)) :
  is_Some (cn r) → labels_match r →
  NoDup (σ (registry r)).*1 → Forall (λ e, answers_in_full e.2) (σ (registry r)) →
  ∃ r1 r2,
    Flush σ r = (Returned None, r1) ∧
    Flush σ (with_faults fs r) = (Returned None, r2) ∧
    samples_sent r2 = samples_sent r1 ∧ ss r2 = ss r1.
Proof.
  intros Hc Hl Hnd Ha.
  destruct (flush_table σ r Hc Hl Hnd Ha) as (r1 & Hrun1 & Hsent1 & Hss1 & _).
  assert (Hc' : is_Some (cn (with_faults fs r))).
  { destruct Hc as [c Hc]. unfold with_faults. rewrite Hc. simpl. eauto. }
  assert (Hsame : samples_sent (with_faults fs r) = samples_sent r).
  { destruct Hc as [c Hc]. unfold samples_sent, with_faults. by rewrite Hc. }
  destruct (flush_table σ (with_faults fs r) Hc' Hl Hnd Ha)
    as (r2 & Hrun2 & Hsent2 & Hss2 & _).
  exists r1, r2. split; [done|]. split; [done|]. split.
  - by rewrite Hsent2, Hsent1, Hsame.
  - by rewrite Hss2, Hss1.
Qed.

Lemma transport_errors_ignored_witness :
  let σ := Fixtures.store Fixtures.all_kinds in
  let r := Fixtures.reporter in
  let fs := [None; Some "write: connection refused"; None;
             Some "write: message too long"] in
  ∃ r1 r2,
    Flush σ r = (Returned None, r1) ∧
    Flush σ (with_faults fs r) = (Returned None, r2) ∧
    samples_sent r2 = samples_sent r1 ∧ ss r2 = ss r1.
Proof.
  apply (transport_errors_ignored (Fixtures.store Fixtures.all_kinds) Fixtures.reporter).
  - by eexists.
  - reflexivity.
  - apply (bool_decide_unpack _). by vm_compute.
  - repeat constructor; simpl; intros qs; apply length_fmap.
Defined.

(** ** A snapshot that answers with too few percentile values *)

Lemma percentile_loop_panics name (conv : float → float) (values : list float) lbls k r :
  (k ≤ length values < k + length lbls)%nat →
  for_range_from k lbls (λ i lbl,
      v <- index values i ;;
      cn_Gauge (name +:+ lbl) (conv v) ;; ret tt) r
  = (Panicked "index out of range",
     hand_all (zip_with (λ lbl v, gauge r (name +:+ lbl) (conv v)) lbls (drop k values)) r).
Proof.
  revert k r. induction lbls as [|lbl lbls IH]; intros k r Hlen; [simpl in Hlen; lia|].
  simpl in Hlen. simpl for_range_from. rewrite bind_assoc.
  destruct (values !! k) as [v|] eqn:Hv.
  - rewrite (bind_index_Some _ _ _ _ _ Hv), bind_assoc, bind_cn_Gauge, bind_ret.
    rewrite IH by (apply lookup_lt_Some in Hv; lia).
    rewrite (drop_S _ _ _ Hv). simpl zip_with. rewrite hand_all_cons. reflexivity.
  - unfold bind, index. rewrite Hv. unfold panic.
    apply lookup_ge_None in Hv. rewrite drop_ge by lia.
    by destruct lbls.
Qed.

Lemma for_range_visit_then_panic k pre name i post r msg r' :
  Forall (λ e, in_bounds r e.2) pre →
  submit_metric name i (visit_all pre r) = (Panicked msg, r') →
  for_range_from k (pre ++ (name, i) :: post)
    (λ _ entry, submit_metric entry.1 entry.2) r = (Panicked msg, r').
Proof.
  revert k r. induction pre as [|[n j] pre IH]; intros k r Hb Hrun.
  - simpl. unfold bind. simpl in Hrun. by rewrite Hrun.
  - apply Forall_cons in Hb as [Hj Hb]. simpl. unfold bind.
    simpl in Hj. rewrite (submit_metric_visit _ _ _ Hj). apply IH; [|done].
    destruct (visit_fields n j r) as (_ & _ & _ & _ & Hq & Hp & _).
    eapply Forall_impl; [exact Hb|]. intros e. by apply in_bounds_ext.
Qed.

(** X11. When a histogram's snapshot answers [Percentiles] with fewer
    values than the label cache has labels, the flush panics with an index
    out of range: by then it has sent the six summary samples and one
    percentile sample per value it got, and it does not get to the entries
    after the histogram, so they are neither sent nor recorded in the
    baseline table. *)
Theorem histogram_short_answer (σ : Store) r pre name (ms : HistogramSnapshot.t) post :
  is_Some (cn r) → labels_match r →
  σ (registry r) = pre ++ (name, Histogram ms) :: post →
  Forall (λ e, answers_in_full e.2) pre →
  (length (HistogramSnapshot.Percentiles ms (percentiles r)) < length (p r))%nat →
  let g suffix v := statsd.GaugeSample (name +:+ suffix) v (tags r) 1 in
  let six :=
    [g ".count" (Float64.of_int64 (HistogramSnapshot.Count ms));
     g ".max" (Float64.of_int64 (HistogramSnapshot.Max ms));
     g ".min" (Float64.of_int64 (HistogramSnapshot.Min ms));
     g ".mean" (HistogramSnapshot.Mean ms);
     g ".stddev" (HistogramSnapshot.StdDev ms);
     g ".var" (HistogramSnapshot.Variance ms)] in
  let some := zip_with g (p r) (HistogramSnapshot.Percentiles ms (percentiles r)) in
  ∃ r_pre r',
    (∀ σ_pre : Store, σ_pre (registry r) = pre →
       Flush σ_pre r = (Returned None, r_pre)) ∧
    Flush σ r = (Panicked "index out of range", r') ∧
    samples_sent r' = samples_sent r_pre ++ six ++ some ∧
    length some = length (HistogramSnapshot.Percentiles ms (percentiles r)) ∧
    ss r' = ss r_pre ∧
    (∀ n, n ∉ pre.*1 → ss r' !! n = ss r !! n).
Proof.
  intros Hc Hl Hreg Ha Hshort g six some.
  assert (Hb : Forall (λ e, in_bounds r e.2) pre).
  { eapply Forall_impl; [exact Ha|]. intros e He. by apply in_bounds_intro. }
  set (rp := visit_all pre r).
  destruct (visit_all_fields pre r) as (_ & _ & _ & Ht & Hq & Hp & Hs). fold rp in Ht, Hq, Hp, Hs.
  assert (Hcp : is_Some (cn rp)) by by apply cn_visit_all_is_Some.
  assert (Hn : (0 < length (percentiles r))%nat).
  { unfold labels_match in Hl. lia. }
  assert (Hrun : ∃ r', submit_metric name (Histogram ms) rp
                       = (Panicked "index out of range", r') ∧
                       samples_sent r' = samples_sent rp ++ six ++ some ∧ ss r' = ss rp).
  { unfold submit_metric. do 6 (rewrite bind_cn_Gauge, ?gauge_hand). rewrite bind_get.
    set (r6 := hand _ (hand _ (hand _ (hand _ (hand _ (hand _ rp)))))).
    assert (Hf : percentiles r6 = percentiles r ∧ p r6 = p r ∧ tags r6 = tags r
                 ∧ ss r6 = ss rp ∧ is_Some (cn r6)
                 ∧ samples_sent r6 = samples_sent rp ++ six).
    { repeat split; try done.
      - apply (cn_hand_all_is_Some [_; _; _; _; _; _] rp Hcp).
      - rewrite <- (samples_sent_hand_all _ rp Hcp).
        subst r6 six g. unfold gauge. by rewrite Ht. }
    destruct Hf as (Hq6 & Hp6 & Ht6 & Hs6 & Hc6 & Hsent6).
    rewrite Hq6, Hp6. rewrite bool_decide_eq_true_2 by done.
    unfold for_range. rewrite percentile_loop_panics by (simpl; lia).
    eexists. split; [reflexivity|]. rewrite drop_0. split.
    - rewrite samples_sent_hand_all by done. rewrite Hsent6, <- app_assoc.
      do 2 f_equal. unfold gauge. by rewrite Ht6.
    - by destruct (hand_all_fields
                     (zip_with (λ lbl v, gauge r6 (name +:+ lbl) v) (p r)
                        (HistogramSnapshot.Percentiles ms (percentiles r))) r6)
        as (_ & _ & _ & _ & _ & _ & ->). }
  destruct Hrun as (r' & Hrun & Hsent & Hss).
  exists rp, r'. split.
  { intros σp Hp'. unfold Flush. rewrite submit_visit_all by by rewrite Hp'.
    subst rp. by rewrite Hp'. }
  split.
  { unfold Flush, submit. rewrite bind_get, Hreg. unfold Each, for_range, bind.
    by rewrite (for_range_visit_then_panic 0 pre name (Histogram ms) post r _ r' Hb Hrun). }
  split; [done|]. split.
  { subst some. rewrite length_zip_with. lia. }
  split; [done|].
  intros n Hnot. rewrite Hss, Hs. by apply baselines_not_named.
Qed.

(** A histogram whose snapshot knows two percentiles only. *)
Lemma histogram_short_answer_witness :
  let ms :=
    {| HistogramSnapshot.Count := 2;
       HistogramSnapshot.Max := 11;
       HistogramSnapshot.Min := 1;
       HistogramSnapshot.Mean := 6;
       HistogramSnapshot.StdDev := 5;
       HistogramSnapshot.Variance := 25;
       HistogramSnapshot.Percentiles := λ _, [6%float; 11%float] |} in
  let r := Fixtures.reporter in
  let pre := [("c", Counter 7); ("g", Gauge 100)] in
  let post := [("d", Counter 9)] in
  let name := "h" in
  let σ := Fixtures.store (pre ++ (name, Histogram ms) :: post) in
  let g suffix v := statsd.GaugeSample (name +:+ suffix) v (tags r) 1 in
  let six :=
    [g ".count" (Float64.of_int64 (HistogramSnapshot.Count ms));
     g ".max" (Float64.of_int64 (HistogramSnapshot.Max ms));
     g ".min" (Float64.of_int64 (HistogramSnapshot.Min ms));
     g ".mean" (HistogramSnapshot.Mean ms);
     g ".stddev" (HistogramSnapshot.StdDev ms);
     g ".var" (HistogramSnapshot.Variance ms)] in
  let some := zip_with g (p r) (HistogramSnapshot.Percentiles ms (percentiles r)) in
  ∃ r_pre r',
    (∀ σ_pre : Store, σ_pre (registry r) = pre →
       Flush σ_pre r = (Returned None, r_pre)) ∧
    Flush σ r = (Panicked "index out of range", r') ∧
    samples_sent r' = samples_sent r_pre ++ six ++ some ∧
    length some = length (HistogramSnapshot.Percentiles ms (percentiles r)) ∧
    ss r' = ss r_pre ∧
    (∀ n, n ∉ pre.*1 → ss r' !! n = ss r !! n).
Proof.
  apply (histogram_short_answer
           (Fixtures.store
              ([("c", Counter 7); ("g", Gauge 100)]
               ++ ("h", Histogram
                     {| HistogramSnapshot.Count := 2;
                        HistogramSnapshot.Max := 11;
                        HistogramSnapshot.Min := 1;
                        HistogramSnapshot.Mean := 6;
                        HistogramSnapshot.StdDev := 5;
                        HistogramSnapshot.Variance := 25;
                        HistogramSnapshot.Percentiles := λ _, [6%float; 11%float] |})
               :: [("d", Counter 9)]))
           Fixtures.reporter [("c", Counter 7); ("g", Gauge 100)] "h" _
           [("d", Counter 9)]).
  - by eexists.
  - reflexivity.
  - reflexivity.
  - by repeat constructor.
  - vm_compute. lia.
Defined.

(** ** Counters over many flushes *)

Lemma wrap_add_wrap a b s :
  Int64.wrap (a + Int64.wrap b + s) = Int64.wrap (a + b + s).
Proof.
  unfold Int64.wrap. f_equal.
  replace (a + ((b + 2 ^ 63) mod 2 ^ 64 - 2 ^ 63) + s + 2 ^ 63)
    with ((b + 2 ^ 63) mod 2 ^ 64 + (a + s)) by lia.
  replace (a + b + s + 2 ^ 63) with ((b + 2 ^ 63) + (a + s)) by lia.
  apply Zplus_mod_idemp_l.
Qed.

Lemma count_values_app name out1 out2 :
  count_values name (out1 ++ out2) = count_values name out1 ++ count_values name out2.
Proof. unfold count_values. by rewrite filter_app, fmap_app. Qed.

Lemma filter_count_no_counter r name (reg : Registry) :
  (∀ v, (name, Counter v) ∉ reg) →
  filter (λ s, is_count_of name s) (flat_map (λ e, expected_samples r e.1 e.2) reg) = [].
Proof.
  induction reg as [|[n i] reg IH]; intros Hn; [done|].
  simpl. rewrite filter_app, IH by (intros v Hv; apply (Hn v); by right).
  rewrite app_nil_r. destruct (decide (n = name)) as [->|Hne].
  - apply filter_count_gauges, expected_samples_gauges.
    intros [v ->]. apply (Hn v). left.
  - by apply filter_count_other.
Qed.

(** What the registry must be at a tick for the counter [name] to be
    flushed. *)
Lemma ticks_telescope k (ticks : list Store) r name :
  is_Some (cn r) → labels_match r →
  Forall (λ σ : Store,
            NoDup (σ (registry r)).*1 ∧
            Forall (λ e, answers_in_full e.2) (σ (registry r)) ∧
            ∃ c, (name, Counter c) ∈ σ (registry r)) ticks →
  ∃ r' out,
    for_range_from k ticks (λ _ σ, submit σ ;; ret tt) r = (Returned tt, r') ∧
    samples_sent r' = samples_sent r ++ out ∧
    length (count_values name out) = length ticks ∧
    Int64.wrap (default 0 (ss r !! name) + foldr Z.add 0 (count_values name out))
    = Int64.wrap (default 0 (ss r' !! name)) ∧
    (∀ σ c, last ticks = Some σ → (name, Counter c) ∈ σ (registry r) →
       ss r' !! name = Some c).
Proof.
  intros Hc Hl Hticks. revert k r Hc Hl Hticks.
  induction ticks as [|σ ticks IH]; intros k r Hc Hl Hticks.
  - exists r, []. rewrite app_nil_r. simpl. rewrite Z.add_0_r. by repeat split.
  - apply Forall_cons in Hticks as [(Hnd & Ha & c & Hin) Hticks].
    destruct (flush_table σ r Hc Hl Hnd Ha) as (r1 & Hrun1 & Hsent1 & Hss1 & Hu1 & Hc1).
    destruct Hu1 as (_ & _ & Hreg & Htags & Hq & Hp & _).
    assert (Hl1 : labels_match r1) by (unfold labels_match; by rewrite Hp, Hq).
    assert (Hb1 : ss r1 !! name = Some c) by (rewrite Hss1; by apply baselines_counter).
    assert (Hticks1 : Forall (λ σ : Store,
              NoDup (σ (registry r1)).*1 ∧
              Forall (λ e, answers_in_full e.2) (σ (registry r1)) ∧
              ∃ c, (name, Counter c) ∈ σ (registry r1)) ticks) by by rewrite Hreg.
    destruct (IH (S k) r1 Hc1 Hl1 Hticks1) as (r' & out & Hrun & Hsent & Hlen & Hsum & Hlast).
    exists r', (flat_map (λ e, expected_samples r e.1 e.2) (σ (registry r)) ++ out).
    split.
    { simpl. rewrite bind_assoc. unfold bind at 1. unfold Flush in Hrun1.
      rewrite Hrun1. by rewrite bind_ret. }
    split; [by rewrite Hsent, Hsent1, app_assoc|].
    assert (Hfirst : count_values name
                       (flat_map (λ e, expected_samples r e.1 e.2) (σ (registry r)))
                     = [Int64.sub c (default 0 (ss r !! name))]).
    { unfold count_values. by rewrite (filter_count_flush r name c). }
    rewrite count_values_app, Hfirst. split; [simpl; by rewrite Hlen|].
    split.
    { simpl. rewrite Hb1 in Hsum. simpl in Hsum. rewrite <- Hsum.
      unfold Int64.sub.
      rewrite Z.add_assoc, wrap_add_wrap. f_equal. lia. }
    intros σ' c' Hlast' Hin'. destruct ticks as [|σ2 ticks].
    + simpl in Hlast'. injection Hlast' as <-.
      assert (r' = r1) as -> by (simpl in Hrun; unfold ret in Hrun; congruence).
      rewrite Hss1. by apply baselines_counter.
    + apply (Hlast σ' c'); [done|by rewrite Hreg].
Qed.

(** X12. Over the ticks of [FlushWithInterval] the deltas sent for a
    counter add up, modulo 2^64, to the counter's value at the last tick
    minus the baseline the reporter started with: one delta per tick, and
    the baseline ends at the value of the last tick.  The result of each
    [submit] is dropped. *)
Theorem counter_deltas_telescope (ticks : list Store) r name :
  is_Some (cn r) → labels_match r →
  Forall (λ σ : Store,
            NoDup (σ (registry r)).*1 ∧
            Forall (λ e, answers_in_full e.2) (σ (registry r)) ∧
            ∃ c, (name, Counter c) ∈ σ (registry r)) ticks →
  ∃ r' out,
    FlushWithInterval ticks r = (Returned tt, r') ∧
    samples_sent r' = samples_sent r ++ out ∧
    length (count_values name out) = length ticks ∧
    Int64.wrap (default 0 (ss r !! name) + foldr Z.add 0 (count_values name out))
    = Int64.wrap (default 0 (ss r' !! name)) ∧
    (Int64.in_range (default 0 (ss r !! name) + foldr Z.add 0 (count_values name out)) →
     Int64.in_range (default 0 (ss r' !! name)) →
     foldr Z.add 0 (count_values name out)
     = default 0 (ss r' !! name) - default 0 (ss r !! name)) ∧
    (∀ σ c, last ticks = Some σ → (name, Counter c) ∈ σ (registry r) →
       ss r' !! name = Some c).
Proof.
  intros Hc Hl Hticks.
  destruct (ticks_telescope 0 ticks r name Hc Hl Hticks)
    as (r' & out & Hrun & Hsent & Hlen & Hsum & Hlast).
  exists r', out. repeat split; try done.
  intros Hr1 Hr2. rewrite !wrap_in_range in Hsum by done. lia.
Qed.

(** Three ticks at which the counter stands at 2, 3 and 10. *)
Lemma counter_deltas_telescope_witness :
  let ticks := [Fixtures.store [("foo", Counter 2); ("g", Gauge 1)];
                Fixtures.store [("foo", Counter 3)];
                Fixtures.store [("t", Timer Fixtures.timer); ("foo", Counter 10)]] in
  let r := Fixtures.reporter in
  let name := "foo" in
  ∃ r' out,
    FlushWithInterval ticks r = (Returned tt, r') ∧
    samples_sent r' = samples_sent r ++ out ∧
    length (count_values name out) = length ticks ∧
    Int64.wrap (default 0 (ss r !! name) + foldr Z.add 0 (count_values name out))
    = Int64.wrap (default 0 (ss r' !! name)) ∧
    (Int64.in_range (default 0 (ss r !! name) + foldr Z.add 0 (count_values name out)) →
     Int64.in_range (default 0 (ss r' !! name)) →
     foldr Z.add 0 (count_values name out)
     = default 0 (ss r' !! name) - default 0 (ss r !! name)) ∧
    (∀ σ c, last ticks = Some σ → (name, Counter c) ∈ σ (registry r) →
       ss r' !! name = Some c).
Proof.
  apply (counter_deltas_telescope
           [Fixtures.store [("foo", Counter 2); ("g", Gauge 1)];
            Fixtures.store [("foo", Counter 3)];
            Fixtures.store [("t", Timer Fixtures.timer); ("foo", Counter 10)]]
           Fixtures.reporter "foo").
  - by eexists.
  - reflexivity.
  - repeat apply Forall_cons_2; try apply Forall_nil_2.
    + split; [apply (bool_decide_unpack _); by vm_compute|].
      split; [by repeat constructor|]. exists 2. apply list_elem_of_here.
    + split; [apply NoDup_singleton|].
      split; [by repeat constructor|]. exists 3. apply list_elem_of_here.
    + split; [apply (bool_decide_unpack _); by vm_compute|].
      split; [repeat constructor; simpl; intros qs; apply length_fmap|].
      exists 10. apply list_elem_of_further, list_elem_of_here.
Defined.

(** X13. The baseline of a counter outlives its absence: when the counter
    is missing from the registry at a flush, nothing is sent for it and
    its baseline stays, so when a counter of that name is there again the
    delta is taken against the old baseline. *)
Theorem counter_baseline_outlives_absence (σ1 σ2 σ3 : Store) r name c1 c3 :
  is_Some (cn r) → labels_match r →
  NoDup (σ1 (registry r)).*1 → Forall (λ e, answers_in_full e.2) (σ1 (registry r)) →
  NoDup (σ2 (registry r)).*1 → Forall (λ e, answers_in_full e.2) (σ2 (registry r)) →
  NoDup (σ3 (registry r)).*1 → Forall (λ e, answers_in_full e.2) (σ3 (registry r)) →
  (name, Counter c1) ∈ σ1 (registry r) →
  (∀ v, (name, Counter v) ∉ σ2 (registry r)) →
  (name, Counter c3) ∈ σ3 (registry r) →
  ∃ r1 r2 r3 out2 out3,
    Flush σ1 r = (Returned None, r1) ∧
    Flush σ2 r1 = (Returned None, r2) ∧ samples_sent r2 = samples_sent r1 ++ out2 ∧
    filter (λ s, is_count_of name s) out2 = [] ∧
    ss r2 !! name = Some c1 ∧
    Flush σ3 r2 = (Returned None, r3) ∧ samples_sent r3 = samples_sent r2 ++ out3 ∧
    filter (λ s, is_count_of name s) out3
      = [statsd.CountSample name (Int64.sub c3 c1) (tags r) 1].
Proof.
  intros Hc Hl Hnd1 Ha1 Hnd2 Ha2 Hnd3 Ha3 Hin1 Hout2 Hin3.
  destruct (flush_table σ1 r Hc Hl Hnd1 Ha1) as (r1 & Hrun1 & _ & Hss1 & Hu1 & Hc1).
  destruct Hu1 as (_ & _ & Hreg1 & Htags1 & Hq1 & Hp1 & _).
  assert (Hl1 : labels_match r1) by (unfold labels_match; by rewrite Hp1, Hq1).
  rewrite <- Hreg1 in Hnd2, Ha2, Hout2.
  destruct (flush_table σ2 r1 Hc1 Hl1 Hnd2 Ha2) as (r2 & Hrun2 & Hsent2 & Hss2 & Hu2 & Hc2).
  destruct Hu2 as (_ & _ & Hreg2 & Htags2 & Hq2 & Hp2 & _).
  assert (Hl2 : labels_match r2) by (unfold labels_match; by rewrite Hp2, Hq2).
  rewrite <- Hreg1, <- Hreg2 in Hnd3, Ha3, Hin3.
  destruct (flush_table σ3 r2 Hc2 Hl2 Hnd3 Ha3) as (r3 & Hrun3 & Hsent3 & _).
  assert (Hb1 : ss r1 !! name = Some c1) by (rewrite Hss1; by apply baselines_counter).
  assert (Hb2 : ss r2 !! name = Some c1)
    by (rewrite Hss2, baselines_not_counter; done).
  exists r1, r2, r3, (flat_map (λ e, expected_samples r1 e.1 e.2) (σ2 (registry r1))),
    (flat_map (λ e, expected_samples r2 e.1 e.2) (σ3 (registry r2))).
  split; [done|]. split; [done|]. split; [done|].
  split; [by apply filter_count_no_counter|].
  split; [done|]. split; [done|]. split; [done|].
  rewrite (filter_count_flush r2 name c3) by done.
  unfold count. by rewrite Hb2, Htags2, Htags1.
Qed.

(** A counter flushed at 5, unregistered, and registered anew at 1. *)
Lemma counter_baseline_outlives_absence_witness :
  let σ1 := Fixtures.store [("foo", Counter 5)] in
  let σ2 := Fixtures.store [("foo", Gauge 3)] in
  let σ3 := Fixtures.store [("foo", Counter 1)] in
  let r := Fixtures.reporter in
  let name := "foo" in
  ∃ r1 r2 r3 out2 out3,
    Flush σ1 r = (Returned None, r1) ∧
    Flush σ2 r1 = (Returned None, r2) ∧ samples_sent r2 = samples_sent r1 ++ out2 ∧
    filter (λ s, is_count_of name s) out2 = [] ∧
    ss r2 !! name = Some 5 ∧
    Flush σ3 r2 = (Returned None, r3) ∧ samples_sent r3 = samples_sent r2 ++ out3 ∧
    filter (λ s, is_count_of name s) out3
      = [statsd.CountSample name (Int64.sub 1 5) (tags r) 1].
Proof.
  apply (counter_baseline_outlives_absence
           (Fixtures.store [("foo", Counter 5)]) (Fixtures.store [("foo", Gauge 3)])
           (Fixtures.store [("foo", Counter 1)]) Fixtures.reporter "foo" 5 1).
  - by eexists.
  - reflexivity.
  - apply NoDup_singleton.
  - by repeat constructor.
  - apply NoDup_singleton.
  - by repeat constructor.
  - apply NoDup_singleton.
  - by repeat constructor.
  - apply list_elem_of_here.
  - intros v Hv. apply list_elem_of_singleton in Hv. discriminate.
  - apply list_elem_of_here.
Defined.

(** ** The baseline table and the life of a reporter *)

Lemma dom_baselines (reg : Registry) (m : gmap string Z) :
  dom (baselines reg m) = dom m ∪ list_to_set (counter_names reg).
Proof.
  revert m. induction reg as [|[name i] reg IH]; intros m.
  - simpl. by rewrite union_empty_r_L.
  - change (baselines ((name, i) :: reg) m)
      with (baselines reg (baseline_after m name i)).
    rewrite IH. destruct i; simpl; try done.
    rewrite dom_insert_L, (comm_L (∪) {[name]} (dom m)).
    by rewrite <- (assoc_L (∪)).
Qed.

(** X14. A flush never drops a baseline: the names of the baseline table
    after a flush are those it had before together with the names of the
    counters of the registry. *)
Theorem baselines_only_grow (σ : Store) r :
  is_Some (cn r) → labels_match r →
  NoDup (σ (registry r)).*1 → Forall (λ e, answers_in_full e.2) (σ (registry r)) →
  ∃ r', Flush σ r = (Returned None, r') ∧
        dom (ss r') = dom (ss r) ∪ list_to_set (counter_names (σ (registry r))).
Proof.
  intros Hc Hl Hnd Ha.
  destruct (flush_table σ r Hc Hl Hnd Ha) as (r' & Hrun & _ & Hss & _).
  exists r'. split; [done|]. rewrite Hss. apply dom_baselines.
Qed.

Lemma baselines_only_grow_witness :
  let r := (Flush (Fixtures.store [("gone", Counter 4)]) Fixtures.reporter).2 in
  let σ := Fixtures.store Fixtures.all_kinds in
  ∃ r', Flush σ r = (Returned None, r') ∧
        dom (ss r') = dom (ss r) ∪ list_to_set (counter_names (σ (registry r))).
Proof.
  apply (baselines_only_grow (Fixtures.store Fixtures.all_kinds)
           (Flush (Fixtures.store [("gone", Counter 4)]) Fixtures.reporter).2).
  - by eexists.
  - reflexivity.
  - apply (bool_decide_unpack _). by vm_compute.
  - repeat constructor; simpl; intros qs; apply length_fmap.
Defined.

Lemma ticks_return k (ticks : list Store) r :
  labels_match r →
  Forall (λ σ : Store, Forall (λ e, answers_in_full e.2) (σ (registry r))) ticks →
  ∃ r', for_range_from k ticks (λ _ σ, submit σ ;; ret tt) r = (Returned tt, r') ∧
        labels_match r' ∧ registry r' = registry r.
Proof.
  revert k r. induction ticks as [|σ ticks IH]; intros k r Hl Hticks.
  - by exists r.
  - apply Forall_cons in Hticks as [Ha Hticks].
    assert (Hb : Forall (λ e, in_bounds r e.2) (σ (registry r))).
    { eapply Forall_impl; [exact Ha|]. intros e He. by apply in_bounds_intro. }
    destruct (visit_all_fields (σ (registry r)) r) as (_ & _ & Hreg & _ & Hq & Hp & _).
    assert (Hl1 : labels_match (visit_all (σ (registry r)) r))
      by (unfold labels_match; by rewrite Hp, Hq).
    destruct (IH (S k) (visit_all (σ (registry r)) r) Hl1) as (r' & Hrun & Hl' & Hreg').
    { by rewrite Hreg. }
    exists r'. split; [|split; [done|congruence]].
    simpl. rewrite bind_assoc. unfold bind at 1.
    rewrite (submit_visit_all σ r Hb). by rewrite bind_ret.
Qed.

(** X15. A reporter that [New] returned, with a registry that is not nil,
    does not panic in its flushes: over any number of ticks of
    [FlushWithInterval], whatever the registry holds at each of them,
    every flush returns, as long as the snapshots answer [Percentiles]
    with one value per fraction; and the label cache still has one label
    per percentile afterwards. *)
Theorem reporter_flushes_return dial FlushLength (options : list configFn)
    r (ticks : list Store) :
  Forall exported options →
  New dial FlushLength options = Returned (inl r) →
  Forall (λ σ : Store, Forall (λ e, answers_in_full e.2) (σ (registry r))) ticks →
  ∃ r', FlushWithInterval ticks r = (Returned tt, r') ∧
        length (p r') = length (percentiles r') ∧
        (∀ σ : Store, Forall (λ e, answers_in_full e.2) (σ (registry r)) →
           ∃ r'', Flush σ r' = (Returned None, r'')).
Proof.
  intros Hex Hnew Hticks.
  pose proof (New_constructed dial FlushLength options Hex) as Hc.
  rewrite Hnew in Hc. destruct (constructed_fit r Hc) as [_ Hl].
  destruct (ticks_return 0 ticks r Hl Hticks) as (r' & Hrun & Hl' & Hreg).
  exists r'. split; [done|]. split; [done|].
  intros σ Ha. eexists. apply submit_visit_all. rewrite Hreg.
  eapply Forall_impl; [exact Ha|]. intros e He. by apply in_bounds_intro.
Qed.

Lemma reporter_flushes_return_witness :
  let ticks := [Fixtures.store Fixtures.all_kinds; Fixtures.store [];
                Fixtures.store [("c", Counter 9)]] in
  let r := Fixtures.reporter_flaky in
  ∃ r', FlushWithInterval ticks r = (Returned tt, r') ∧
        length (p r') = length (percentiles r') ∧
        (∀ σ : Store, Forall (λ e, answers_in_full e.2) (σ (registry r)) →
           ∃ r'', Flush σ r' = (Returned None, r'')).
Proof.
  apply (reporter_flushes_return Fixtures.dial_flaky 1 [WithRegistry Fixtures.reg]
           Fixtures.reporter_flaky
           [Fixtures.store Fixtures.all_kinds; Fixtures.store [];
            Fixtures.store [("c", Counter 9)]]).
  - repeat constructor.
  - vm_compute. reflexivity.
  - apply Forall_cons_2; [|apply Forall_cons_2; [|apply Forall_cons_2; [|apply Forall_nil_2]]].
    + repeat constructor; simpl; intros qs; apply length_fmap.
    + apply Forall_nil_2.
    + by repeat constructor.
Defined.
